(** * vyos_api_command: the conditional poll-and-retry loop

    A shallow embedding of [plugins/modules/vyos_api_command.py]:
    [parse_commands] and [main].  Calls into the host framework and
    the device are recorded in a trace of events, so that statements
    about how many dispatches, evaluations and sleeps a run performs
    are statements about the value [main] computes. *)

From Stdlib Require Import ZArith Ascii.
From stdpp Require Import base option list strings gmap.

Local Open Scope Z_scope.

(** ** Python values and exceptions *)

(** The values that end up in the dictionaries handed to
    [module.exit_json] and [module.fail_json]. *)
Inductive PyVal :=
| VBool (b : bool)
| VStr (s : string)
| VList (l : list string)
| VLines (l : list (list string)).

(** The exceptions that can travel through [main]. *)
Inductive PyExn :=
| AttributeError (msg : string)
| ValueError (msg : string)
| IndexError (msg : string)
| UnboundLocalError (var : string)
| TransportError (reason : string).

(** Result of calling into a collaborator: a value, or a raised
    exception. *)
Inductive Py (A : Type) :=
| Ok (a : A)
| Raise (e : PyExn).
Arguments Ok {A} a.
Arguments Raise {A} e.

#[global] Instance PyVal_eq_dec : EqDecision PyVal.
Proof. solve_decision. Defined.
#[global] Instance PyExn_eq_dec : EqDecision PyExn.
Proof. solve_decision. Defined.
#[global] Instance Py_eq_dec `{EqDecision A} : EqDecision (Py A).
Proof. solve_decision. Defined.

(** How a run of the module ends: [module.exit_json] or
    [module.fail_json] with keyword arguments [kw] (both leave the
    process), or an exception nobody catches. *)
Inductive Outcome :=
| exit_json (kw : gmap string PyVal)
| fail_json (kw : gmap string PyVal)
| uncaught (e : PyExn).

(** ** Strings *)

(** [str.startswith(p)]. *)
Fixpoint startswith (s p : string) : bool :=
  match p with
  | EmptyString => true
  | String a p' =>
      match s with
      | EmptyString => false
      | String b s' => if decide (a = b) then startswith s' p' else false
      end
  end.

(** [str.startswith(tuple)]: some member of the tuple is a prefix. *)
Definition startswith_any (s : string) (ps : list string) : bool :=
  existsb (startswith s) ps.

(** [str.split("\n")]. *)
Fixpoint split_lines_aux (cur : string) (s : string) : list string :=
  match s with
  | EmptyString => [String.rev cur]
  | String c s' =>
      if decide (c = "010"%char) then String.rev cur :: split_lines_aux "" s'
      else split_lines_aux (String c cur) s'
  end.
Definition split_lines (s : string) : list string := split_lines_aux "" s.

(** Modelled from the spec: [to_lines] (imported from the netcommon
    utilities, not part of the module's file) "splits each response
    element into display lines". *)
Definition to_lines (responses : list string) : list (list string) :=
  split_lines <$> responses.

(** ** The module's data *)

Definition API_COMMANDS : list string :=
  ["show"; "generate"; "set"; "delete"; "comment"].

(** [match=dict(default="all", choices=["all", "any"])]. *)
Inductive MatchPolicy := all | any.

#[global] Instance MatchPolicy_eq_dec : EqDecision MatchPolicy.
Proof. solve_decision. Defined.

(** The entries of [module.params] that [main] reads, and
    [module.check_mode].  The commands are strings, as the module's
    examples have them; the argument spec lets other values through
    (its elements are raw), and [parse_commands] does not return on
    those: [item.startswith] is not defined for them. *)
Record Params := {
  commands : list string;
  wait_for : option (list string);
  match_ : MatchPolicy;
  retries : Z;
  interval : Z;
  check_mode : bool;
}.

(** Modelled from the spec: the [Conditional] class is imported, not
    defined in the module's file.  An object keeps the expression it
    was compiled from in [raw] ("the original expression string").  The
    class is taken to define no [__eq__], so [list.remove] compares
    objects by identity: [ident] is the position of the object in the
    list comprehension that built it. *)
Record Conditional := { ident : nat; raw : string }.

#[global] Instance Conditional_eq_dec : EqDecision Conditional.
Proof. solve_decision. Defined.

(** Modelled from the spec: the collaborators of [main] that live
    outside the module's file, each a value or a raised exception.
    - [Conditional_init c] is the constructor [Conditional(c)]: it
      either builds the object or raises;
    - [Conditional_call c responses] is [item(responses)] for the
      object built from [c]: a function of the expression and the
      response only;
    - [run_api_commands k commands direct_fail] is the [k]-th call
      (counted from 0) of [run_api_commands(module, commands,
      direct_fail)]: the device's answer may change from call to call,
      and a failure of the transport is an exception. *)
Class Collaborators := {
  Conditional_init : string -> Py unit;
  Conditional_call : string -> list string -> Py bool;
  run_api_commands : nat -> list string -> bool -> Py (list string);
}.

(** ** Traces *)

(** What a run does to the outside world, in order. *)
Inductive Event :=
| Compiled (expr : string) (r : Py unit)
| Dispatched (k : nat) (cmds : list string) (r : Py (list string))
| Evaluated (c : Conditional) (r : Py bool)
| Slept (secs : Z).

#[global] Instance Event_eq_dec : EqDecision Event.
Proof. solve_decision. Defined.

Definition is_dispatch (e : Event) : bool :=
  match e with Dispatched _ _ _ => true | _ => false end.
Definition is_sleep (e : Event) : bool :=
  match e with Slept _ => true | _ => false end.
Definition is_compile (e : Event) : bool :=
  match e with Compiled _ _ => true | _ => false end.

Definition count (f : Event -> bool) (t : list Event) : nat :=
  length (List.filter f t).

Definition dispatches (t : list Event) : nat := count is_dispatch t.
Definition sleeps (t : list Event) : nat := count is_sleep t.

(** ** A small monad: a value or an early end of the run, with the
    trace so far *)

Inductive Res (A : Type) :=
| Ret (a : A)
| Halt (o : Outcome).
Arguments Ret {A} a.
Arguments Halt {A} o.

Definition Run (A : Type) : Type := Res A * list Event.

Definition ret {A} (a : A) : Run A := (Ret a, []).
Definition halt {A} (o : Outcome) : Run A := (Halt o, []).
Definition emit (e : Event) : Run unit := (Ret tt, [e]).

Definition bind {A B} (m : Run A) (k : A -> Run B) : Run B :=
  match m with
  | (Ret a, t) => let '(r, t') := k a in (r, t ++ t')
  | (Halt o, t) => (Halt o, t)
  end.

Notation "x <- m ;; k" := (bind m (fun x => k))
  (at level 100, m at next level, right associativity).
Notation "m ;;; k" := (bind m (fun _ => k))
  (at level 100, right associativity).

(** ** Lists *)

(** [list.remove(x)]: the first element equal to [x] goes; [None]
    stands for the [ValueError] Python raises when there is none. *)
Fixpoint list_remove `{EqDecision A} (x : A) (l : list A) : option (list A) :=
  match l with
  | [] => None
  | y :: l' =>
      if decide (x = y) then Some l' else cons y <$> list_remove x l'
  end.

(** The [ValueError] of [list.remove] on an absent element, and of
    [time.sleep] on a negative argument. *)
Definition remove_absent : PyExn := ValueError "list.remove(x): x not in list".
Definition negative_sleep : PyExn :=
  ValueError "sleep length must be non-negative".

(** ** parse_commands *)

Definition not_allowed_msg (item : string) : string :=
  "'" +:+ item +:+ "' - is not an allowed command".

Definition check_mode_warning (item : string) : string :=
  "Only show commands are supported when using check mode, not executing "
  +:+ item.

(** The body of [for item in list(commands)]: [snapshot] is what is left
    of the copy being iterated, [cmds] the list being mutated by
    [commands.remove], [warnings] the list being appended to. *)
Fixpoint parse_commands_loop (check : bool)
    (snapshot cmds warnings : list string) : Res (list string * list string) :=
  match snapshot with
  | [] => Ret (cmds, warnings)
  | item :: rest =>
      if negb (startswith_any item API_COMMANDS) then
        Halt (fail_json {[ "msg" := VStr (not_allowed_msg item) ]})
      else if check && negb (startswith item "show") then
        match list_remove item cmds with
        | None => Halt (uncaught remove_absent)
        | Some cmds' =>
            parse_commands_loop check rest cmds'
              (warnings ++ [check_mode_warning item])
        end
      else parse_commands_loop check rest cmds warnings
  end.

(** [parse_commands(module, warnings)], called with [warnings = list()].
    Returns the command list and the warnings collected. *)
Definition parse_commands (p : Params) : Res (list string * list string) :=
  parse_commands_loop p.(check_mode) p.(commands) p.(commands) [].

(** [result] after [result.update({"stdout": ..., "stdout_lines": ...})].
    The dictionary was built as [{"changed": False, "warnings": warnings}]
    with a reference to the list [parse_commands] appends to, so it
    shows the warnings collected there. *)
Definition success_result (warnings responses : list string)
    : gmap string PyVal :=
  let result : gmap string PyVal :=
    {[ "changed" := VBool false; "warnings" := VList warnings ]} in
  <["stdout_lines" := VLines (to_lines responses)]>
    (<["stdout" := VList responses]> result).

(** The keyword arguments of the [fail_json] call that reports unmet
    conditions. *)
Definition unmet_msg : string :=
  "One or more conditional statements have not been satisfied".

Definition failure_result (failed_conditions : list string)
    : gmap string PyVal :=
  {[ "msg" := VStr unmet_msg; "failed_conditions" := VList failed_conditions ]}.

Section Main.
Context `{W : Collaborators}.

(** ** main: compiling the conditionals *)

(** [[Conditional(c) for c in wait_for]], numbering the objects from
    [i].  The comprehension stops at the first constructor that
    raises. *)
Fixpoint compile (i : nat) (exprs : list string)
    : Py (list Conditional) * list Event :=
  match exprs with
  | [] => (Ok [], [])
  | c :: rest =>
      match Conditional_init c with
      | Raise e => (Raise e, [Compiled c (Raise e)])
      | Ok u =>
          let '(r, t) := compile (S i) rest in
          (match r with
           | Ok cs => Ok ({| ident := i; raw := c |} :: cs)
           | Raise e => Raise e
           end, Compiled c (Ok u) :: t)
      end
  end.

(** ** main: the loops *)

(** [for item in list(conditionals): ...]: [snapshot] is what is left
    of the copy, [conditionals] the variable of [main]. *)
Fixpoint evaluate (m : MatchPolicy) (responses : list string)
    (snapshot conditionals : list Conditional) : Run (list Conditional) :=
  match snapshot with
  | [] => ret conditionals
  | item :: rest =>
      let r := Conditional_call item.(raw) responses in
      emit (Evaluated item r) ;;;
      match r with
      | Raise e => halt (uncaught e)
      | Ok true =>
          match m with
          | any => ret []
          | all =>
              match list_remove item conditionals with
              | None => halt (uncaught remove_absent)
              | Some conditionals' => evaluate m responses rest conditionals'
              end
          end
      | Ok false => evaluate m responses rest conditionals
      end
  end.

(** [time.sleep(interval)]; a negative argument raises. *)
Definition sleep (secs : Z) : Run unit :=
  emit (Slept secs) ;;;
  if secs <? 0 then halt (uncaught negative_sleep) else ret tt.

(** [for item in range(retries): ...] with [n] iterations left, [k]
    the value of the loop counter.  [responses] is [None] as long as
    the local variable of that name has not been assigned. *)
Fixpoint poll (m : MatchPolicy) (secs : Z) (cmds : list string)
    (n k : nat) (conditionals : list Conditional)
    (responses : option (list string))
    : Run (list Conditional * option (list string)) :=
  match n with
  | O => ret (conditionals, responses)
  | S n' =>
      let r := run_api_commands k cmds false in
      emit (Dispatched k cmds r) ;;;
      match r with
      | Raise e => halt (uncaught e)
      | Ok resp =>
          conditionals' <- evaluate m resp conditionals conditionals ;;
          match conditionals' with
          | [] => ret ([], Some resp)
          | _ :: _ =>
              sleep secs ;;;
              poll m secs cmds n' (S k) conditionals' (Some resp)
          end
      end
  end.

(** What follows the retry loop. *)
Definition report (warnings : list string)
    (st : list Conditional * option (list string)) : Outcome :=
  match st with
  | (c :: rest, _) =>
      let conditionals := c :: rest in
      fail_json (failure_result (raw <$> conditionals))
  | ([], None) => uncaught (UnboundLocalError "responses")
  | ([], Some responses) => exit_json (success_result warnings responses)
  end.

Definition main (p : Params) : Outcome * list Event :=
  match parse_commands p with
  | Halt o => (o, [])
  | Ret (cmds, warnings) =>
      let wait_for := default [] p.(wait_for) in
      match compile 0 wait_for with
      | (Raise (AttributeError msg), t) =>
          (fail_json {[ "msg" := VStr msg ]}, t)
      | (Raise e, t) => (uncaught e, t)
      | (Ok conditionals, t) =>
          match poll p.(match_) p.(interval) cmds
                     (Z.to_nat p.(retries)) 0 conditionals None with
          | (Halt o, t') => (o, t ++ t')
          | (Ret st, t') => (report warnings st, t ++ t')
          end
      end
  end.

End Main.

(** ** A concrete condition evaluator *)

(** Modelled from the spec: the [Conditional] class (imported from the
    netcommon parsing utilities) is not part of the module's file.  The
    spec's ConditionEvaluator stands for it: an expression is
    [<operand> <operator> <literal>]; the operand is [result] (the whole
    response, joined) or [result[i]]; the operators are equality,
    inequality, containment and the numeric comparisons; compiling a
    malformed expression fails; evaluating [result[i]] fails when [i] is
    out of bounds for the response. *)
Module ConditionEvaluator.

Inductive Operand := Whole | Element (i : nat).
Inductive Operator := OpEq | OpNeq | OpContains | OpLt | OpLe | OpGt | OpGe.

Record CompiledCondition := {
  operand : Operand;
  operator : Operator;
  literal : string;
}.

Definition push (c : ascii) (cur : option string) : option string :=
  Some (String c (default "" cur)).

Definition flush (cur : option string) (k : list string) : list string :=
  match cur with
  | None => k
  | Some acc => String.rev acc :: k
  end.

(** Words separated by spaces; a quoted stretch belongs to one word
    and loses its quotes; [None] when a quote is left open. *)
Fixpoint tokens (quote : option ascii) (cur : option string) (s : string)
    : option (list string) :=
  match s with
  | EmptyString =>
      match quote with
      | Some _ => None
      | None => Some (flush cur [])
      end
  | String c s' =>
      match quote with
      | Some q =>
          if decide (c = q) then tokens None cur s'
          else tokens quote (push c cur) s'
      | None =>
          if decide (c = " "%char) then flush cur <$> tokens None None s'
          else if decide (c = "'"%char) then
            tokens (Some c) (Some (default "" cur)) s'
          else if decide (c = "034"%char) then
            tokens (Some c) (Some (default "" cur)) s'
          else tokens None (push c cur) s'
      end
  end.

Definition digit (c : ascii) : option nat :=
  let n := nat_of_ascii c in
  if bool_decide (48 <= n <= 57)%nat then Some (n - 48)%nat else None.

Fixpoint number_aux (acc : nat) (s : string) : option nat :=
  match s with
  | EmptyString => Some acc
  | String c s' =>
      match digit c with
      | Some d => number_aux (10 * acc + d)%nat s'
      | None => None
      end
  end.

(** A non-empty run of decimal digits. *)
Definition number (s : string) : option nat :=
  match s with
  | EmptyString => None
  | _ => number_aux 0%nat s
  end.

Fixpoint drop_string (n : nat) (s : string) : string :=
  match n, s with
  | S n', String _ s' => drop_string n' s'
  | _, _ => s
  end.

Fixpoint index_digits (acc : string) (s : string) : option nat :=
  match s with
  | EmptyString => None
  | String c s' =>
      if decide (c = "]"%char) then
        match s' with
        | EmptyString => number (String.rev acc)
        | _ => None
        end
      else index_digits (String c acc) s'
  end.

Definition parse_operand (s : string) : option Operand :=
  if decide (s = "result") then Some Whole
  else if startswith s "result[" then
    Element <$> index_digits "" (drop_string 7 s)
  else None.

Definition parse_operator (s : string) : option Operator :=
  if decide (s = "eq") then Some OpEq
  else if decide (s = "==") then Some OpEq
  else if decide (s = "neq") then Some OpNeq
  else if decide (s = "!=") then Some OpNeq
  else if decide (s = "contains") then Some OpContains
  else if decide (s = "<") then Some OpLt
  else if decide (s = "<=") then Some OpLe
  else if decide (s = ">") then Some OpGt
  else if decide (s = ">=") then Some OpGe
  else None.

(** [None] is the spec's MalformedExpressionError. *)
Definition compile_expr (expr : string) : option CompiledCondition :=
  match tokens None None expr with
  | Some [a; o; l] =>
      match parse_operand a, parse_operator o with
      | Some a', Some o' =>
          Some {| operand := a'; operator := o'; literal := l |}
      | _, _ => None
      end
  | _ => None
  end.

Fixpoint contains (s sub : string) : bool :=
  startswith s sub ||
  match s with
  | EmptyString => false
  | String _ s' => contains s' sub
  end.

Fixpoint join (sep : string) (l : list string) : string :=
  match l with
  | [] => ""
  | [s] => s
  | s :: l' => s +:+ sep +:+ join sep l'
  end.

Definition numeric (f : nat -> nat -> bool) (a b : string) : bool :=
  match number a, number b with
  | Some x, Some y => f x y
  | _, _ => false
  end.

Definition apply_operator (o : Operator) (value lit : string) : bool :=
  match o with
  | OpEq => bool_decide (value = lit)
  | OpNeq => negb (bool_decide (value = lit))
  | OpContains => contains value lit
  | OpLt => numeric Nat.ltb value lit
  | OpLe => numeric Nat.leb value lit
  | OpGt => numeric (fun x y => Nat.ltb y x) value lit
  | OpGe => numeric (fun x y => Nat.leb y x) value lit
  end.

Definition evaluate_cond (c : CompiledCondition) (responses : list string)
    : Py bool :=
  match c.(operand) with
  | Whole =>
      Ok (apply_operator c.(operator) (join (String "010"%char "") responses)
            c.(literal))
  | Element i =>
      match responses !! i with
      | Some value => Ok (apply_operator c.(operator) value c.(literal))
      | None => Raise (IndexError "list index out of range")
      end
  end.

(** The constructor: a malformed expression raises the exception
    [main] has a handler for. *)
Definition init (expr : string) : Py unit :=
  match compile_expr expr with
  | Some _ => Ok tt
  | None => Raise (AttributeError ("malformed expression: " +:+ expr))
  end.

Definition call (expr : string) (responses : list string) : Py bool :=
  match compile_expr expr with
  | Some c => evaluate_cond c responses
  | None => Raise (AttributeError ("malformed expression: " +:+ expr))
  end.

End ConditionEvaluator.

(** A device whose answers are scripted: the [k]-th dispatch gets the
    [k]-th answer, and [last] once the script has run out. *)
Definition scripted (answers : list (Py (list string)))
    (last : Py (list string)) : Collaborators :=
  {| Conditional_init := ConditionEvaluator.init;
     Conditional_call := ConditionEvaluator.call;
     run_api_commands := fun k _ _ => default last (answers !! k) |}.

(** * Vocabulary of the statements *)

Definition allowed (c : string) : bool := startswith_any c API_COMMANDS.
Definition is_show (c : string) : bool := startswith c "show".

(** The first command outside the allow-list, if any. *)
Definition first_rejected (cmds : list string) : option string :=
  List.find (fun c => negb (allowed c)) cmds.

(** The commands that survive [parse_commands]. *)
Definition surviving (check : bool) (cmds : list string) : list string :=
  if check then List.filter is_show cmds else cmds.

(** The warnings [parse_commands] appends. *)
Definition dropped_warnings (check : bool) (cmds : list string) : list string :=
  if check then
    check_mode_warning <$> List.filter (fun c => negb (is_show c)) cmds
  else [].


(** The exception an event raises into [main], if any. *)
Definition halts_with (x : Event) : option PyExn :=
  match x with
  | Dispatched _ _ (Raise e) => Some e
  | Evaluated _ (Raise e) => Some e
  | Slept secs => if secs <? 0 then Some negative_sleep else None
  | _ => None
  end.

(** The event of a condition evaluating true. *)
Definition satisfied (x : Event) : Prop := exists c, x = Evaluated c (Ok true).

(** The events after which the loops do nothing more: an exception,
    or, under [any], a condition that holds. *)
Definition stops (m : MatchPolicy) (x : Event) : Prop :=
  is_Some (halts_with x) \/ (m = any /\ satisfied x).

(** How a stopping event decides the result. *)
Definition decided {A} (m : MatchPolicy) (sat : Res A -> Prop)
    (x : Event) (r : Res A) : Prop :=
  (exists e, halts_with x = Some e /\ r = Halt (uncaught e)) \/
  (m = any /\ satisfied x /\ sat r).

(** A trace holds no stopping event, or exactly one, at its end, which
    decides the result. *)
Definition shape {A} (m : MatchPolicy) (sat : Res A -> Prop)
    (r : Res A) (t : list Event) : Prop :=
  Forall (fun x => ~ stops m x) t \/
  exists t0 x, t = t0 ++ [x] /\ Forall (fun x => ~ stops m x) t0 /\
               decided m sat x r.

(** The value of the local variable [responses] after the events of
    [t], when it was [prev] before. *)
Fixpoint last_response (prev : option (list string)) (t : list Event)
    : option (list string) :=
  match t with
  | [] => prev
  | Dispatched _ _ (Ok resp) :: t' => last_response (Some resp) t'
  | _ :: t' => last_response prev t'
  end.

(** The conditions a trace evaluates, in order. *)
Fixpoint evaluated_of (t : list Event) : list Conditional :=
  match t with
  | [] => []
  | Evaluated c _ :: t' => c :: evaluated_of t'
  | _ :: t' => evaluated_of t'
  end.

(** No condition is evaluated again once it has evaluated true. *)
Fixpoint once (t : list Event) : Prop :=
  match t with
  | [] => True
  | Evaluated c (Ok true) :: t' => (c ∉ evaluated_of t') /\ once t'
  | _ :: t' => once t'
  end.

(** The objects the list comprehension builds from [exprs], numbered
    from [i]. *)
Fixpoint objects (i : nat) (exprs : list string) : list Conditional :=
  match exprs with
  | [] => []
  | c :: rest => {| ident := i; raw := c |} :: objects (S i) rest
  end.

Section Vocabulary.
Context `{W : Collaborators}.

(** The condition does not hold of the response (and its evaluation
    does not raise). *)
Definition unmet (resp : list string) (c : Conditional) : Prop :=
  Conditional_call c.(raw) resp = Ok false.

#[global] Instance unmet_dec resp c : Decision (unmet resp c).
Proof. unfold unmet. apply _. Defined.

(** The event of evaluating [c] against [resp]. *)
Definition evaluation (resp : list string) (c : Conditional) : Event :=
  Evaluated c (Conditional_call c.(raw) resp).

(** The evaluation pass without the bookkeeping of [list.remove]:
    [kept] collects the conditions that stay pending.  It agrees with
    [evaluate] when no object occurs twice ([evaluate_settle]). *)
Fixpoint settle (m : MatchPolicy) (resp : list string)
    (snap kept : list Conditional) : Run (list Conditional) :=
  match snap with
  | [] => (Ret kept, [])
  | item :: rest =>
      match Conditional_call item.(raw) resp with
      | Raise e => (Halt (uncaught e), [evaluation resp item])
      | Ok true =>
          match m with
          | any => (Ret [], [evaluation resp item])
          | all =>
              ((settle m resp rest kept).1,
               evaluation resp item :: (settle m resp rest kept).2)
          end
      | Ok false =>
          ((settle m resp rest (kept ++ [item])).1,
           evaluation resp item :: (settle m resp rest (kept ++ [item])).2)
      end
  end.
(** A run of [main] ends in [parse_commands], in the compilation of the
    conditionals, or after the retry loop. *)
Inductive main_path (p : Params) : Outcome -> list Event -> Prop :=
| path_rejected item :
    first_rejected p.(commands) = Some item ->
    main_path p (fail_json {[ "msg" := VStr (not_allowed_msg item) ]}) []
| path_malformed e t :
    first_rejected p.(commands) = None ->
    compile 0 (default [] p.(wait_for)) = (Raise e, t) ->
    main_path p
      (match e with
       | AttributeError msg => fail_json {[ "msg" := VStr msg ]}
       | _ => uncaught e
       end) t
| path_polled r tp :
    first_rejected p.(commands) = None ->
    Forall (fun s => Conditional_init s = Ok tt) (default [] p.(wait_for)) ->
    poll p.(match_) p.(interval) (surviving p.(check_mode) p.(commands))
      (Z.to_nat p.(retries)) 0 (objects 0 (default [] p.(wait_for))) None
      = (r, tp) ->
    main_path p
      (match r with
       | Halt o => o
       | Ret st => report (dropped_warnings p.(check_mode) p.(commands)) st
       end)
      (((fun s => Compiled s (Ok tt)) <$> default [] p.(wait_for)) ++ tp).

End Vocabulary.

(** ** The claims that do not hold of the code, as they are stated *)

(** C1 as stated: when the retry budget is exhausted with conditions
    pending, sleep has been invoked one time less than the commands
    have been dispatched; and not at all when the first attempt
    succeeds. *)
Definition sleeps_only_between_attempts : Prop :=
  forall (W : Collaborators) (p : Params) kw t,
    (main p = (fail_json kw, t) -> is_Some (kw !! "failed_conditions") ->
     sleeps t = (dispatches t - 1)%nat) /\
    (main p = (exit_json kw, t) -> dispatches t = 1%nat -> sleeps t = 0%nat).

(** C2 as stated: without conditions, and with a device that answers,
    the commands are dispatched exactly once whatever [retries] is,
    and the module exits with the response. *)
Definition one_dispatch_whatever_retries : Prop :=
  forall (W : Collaborators) (p : Params) resp,
    default [] p.(wait_for) = [] ->
    first_rejected p.(commands) = None ->
    (forall k, run_api_commands k (surviving p.(check_mode) p.(commands)) false
               = Ok resp) ->
    dispatches (main p).2 = 1%nat /\
    (main p).1 =
      exit_json
        (success_result (dropped_warnings p.(check_mode) p.(commands)) resp).

(** C4 as stated: an index out of the range of the response, met while
    a condition is evaluated, does not propagate: the condition counts
    as unmet, the loop goes on, and the run ends with the report of
    unmet conditions once the retries are used up.  Here for a single
    condition whose evaluation meets the index error on every
    response of the device. *)
Definition index_error_is_downgraded : Prop :=
  forall (W : Collaborators) (p : Params) expr msg,
    first_rejected p.(commands) = None ->
    p.(wait_for) = Some [expr] ->
    Conditional_init expr = Ok tt ->
    (forall k, exists resp,
       run_api_commands k (surviving p.(check_mode) p.(commands)) false
         = Ok resp /\
       Conditional_call expr resp = Raise (IndexError msg)) ->
    0 <= p.(interval) ->
    (main p).1 = fail_json (failure_result [expr]) /\
    dispatches (main p).2 = Z.to_nat p.(retries).

(** ** Concrete runs *)

(** A device that keeps answering with an old version; one that is
    upgraded by the third attempt; one whose second dispatch fails;
    one that answers two commands. *)
Definition old_version : Collaborators := scripted [] (Ok ["VyOS 1.2.8"]).
Definition upgraded : Collaborators :=
  scripted [Ok ["VyOS 1.2.8"]; Ok ["VyOS 1.2.8"]] (Ok ["VyOS 1.3.0"]).
Definition unreachable : Collaborators :=
  scripted [Ok ["VyOS 1.2.8"]] (Raise (TransportError "connection refused")).
Definition two_answers : Collaborators :=
  scripted [] (Ok ["VyOS 1.3.0"; "eth0 up"]).

Definition run (cmds wf : list string) (m : MatchPolicy) (n : Z) : Params :=
  {| commands := cmds; wait_for := Some wf; match_ := m;
     retries := n; interval := 1; check_mode := false |}.

Definition wants_1_3_0 : string := "result[0] contains 'VyOS 1.3.0'".
Definition wants_vyos : string := "result[0] contains 'VyOS'".
Definition wants_x : string := "result[0] eq 'x'".
Definition wants_sixth : string := "result[5] eq 'x'".
Definition frobnicate : string := "result[0] frobnicate 'x'".

Definition cond (i : nat) (s : string) : Conditional := {| ident := i; raw := s |}.

(** The trace of three attempts against the device that is never
    upgraded. *)
Definition stale_trace : list Event :=
  [Compiled wants_1_3_0 (Ok tt);
   Dispatched 0 ["show version"] (Ok ["VyOS 1.2.8"]);
   Evaluated (cond 0 wants_1_3_0) (Ok false); Slept 1;
   Dispatched 1 ["show version"] (Ok ["VyOS 1.2.8"]);
   Evaluated (cond 0 wants_1_3_0) (Ok false); Slept 1;
   Dispatched 2 ["show version"] (Ok ["VyOS 1.2.8"]);
   Evaluated (cond 0 wants_1_3_0) (Ok false); Slept 1].

(** The trace of the run cut short by the failure of the second
    dispatch. *)
Definition unreachable_trace : list Event :=
  [Compiled wants_1_3_0 (Ok tt);
   Dispatched 0 ["show version"] (Ok ["VyOS 1.2.8"]);
   Evaluated (cond 0 wants_1_3_0) (Ok false); Slept 1].

Definition refused : PyExn := TransportError "connection refused".
Definition out_of_range : PyExn := IndexError "list index out of range".

(** The trace up to the evaluation of [result[5]] against two answers. *)
Definition sixth_trace : list Event :=
  [Compiled wants_sixth (Ok tt);
   Dispatched 0 ["show version"; "show interfaces"]
     (Ok ["VyOS 1.3.0"; "eth0 up"])].

(** The trace up to the first condition that holds, under [any]. *)
Definition any_trace : list Event :=
  [Compiled wants_x (Ok tt); Compiled wants_vyos (Ok tt);
   Compiled wants_1_3_0 (Ok tt);
   Dispatched 0 ["show version"] (Ok ["VyOS 1.2.8"]);
   Evaluated (cond 0 wants_x) (Ok false)].

(** Two conditions met on different attempts, under [all]. *)
Definition upgrade_trace : list Event :=
  [Compiled wants_vyos (Ok tt); Compiled wants_1_3_0 (Ok tt);
   Dispatched 0 ["show version"] (Ok ["VyOS 1.2.8"]);
   Evaluated (cond 0 wants_vyos) (Ok true);
   Evaluated (cond 1 wants_1_3_0) (Ok false); Slept 1;
   Dispatched 1 ["show version"] (Ok ["VyOS 1.2.8"]);
   Evaluated (cond 1 wants_1_3_0) (Ok false); Slept 1;
   Dispatched 2 ["show version"] (Ok ["VyOS 1.3.0"]);
   Evaluated (cond 1 wants_1_3_0) (Ok true)].

Definition malformed : PyExn :=
  AttributeError "malformed expression: result[0] frobnicate 'x'".
(** ** Variations of the parameters *)

Definition with_commands (p : Params) (cmds : list string) : Params :=
  {| commands := cmds; wait_for := p.(wait_for); match_ := p.(match_);
     retries := p.(retries); interval := p.(interval);
     check_mode := p.(check_mode) |}.

Definition with_match (p : Params) (m : MatchPolicy) : Params :=
  {| commands := p.(commands); wait_for := p.(wait_for); match_ := m;
     retries := p.(retries); interval := p.(interval);
     check_mode := p.(check_mode) |}.

Definition with_retries (p : Params) (n : Z) : Params :=
  {| commands := p.(commands); wait_for := p.(wait_for); match_ := p.(match_);
     retries := n; interval := p.(interval); check_mode := p.(check_mode) |}.

(** The exception a call recorded in the trace has raised, if it has:
    that of a constructor, a dispatch, an evaluation or a sleep. *)
Definition raised (x : Event) : option PyExn :=
  match x with
  | Compiled _ (Raise e) => Some e
  | _ => halts_with x
  end.

(** A run in check mode. *)
Definition dry_run (cmds : list string) : Params :=
  {| commands := cmds; wait_for := None; match_ := all;
     retries := 10; interval := 1; check_mode := true |}.

(** A run whose interval is negative. *)
Definition hasty (wf : list string) : Params :=
  {| commands := ["show version"]; wait_for := Some wf; match_ := all;
     retries := 3; interval := -1; check_mode := false |}.

(** The trace of the run that succeeds at the third attempt. *)
Definition success_trace : list Event :=
  [Compiled wants_1_3_0 (Ok tt);
   Dispatched 0 ["show version"] (Ok ["VyOS 1.2.8"]);
   Evaluated (cond 0 wants_1_3_0) (Ok false); Slept 1;
   Dispatched 1 ["show version"] (Ok ["VyOS 1.2.8"]);
   Evaluated (cond 0 wants_1_3_0) (Ok false); Slept 1;
   Dispatched 2 ["show version"] (Ok ["VyOS 1.3.0"]);
   Evaluated (cond 0 wants_1_3_0) (Ok true)].

(** Two attempts under [any] with neither condition ever met. *)
Definition any_stale_trace : list Event :=
  [Compiled wants_x (Ok tt); Compiled wants_1_3_0 (Ok tt);
   Dispatched 0 ["show version"] (Ok ["VyOS 1.2.8"]);
   Evaluated (cond 0 wants_x) (Ok false);
   Evaluated (cond 1 wants_1_3_0) (Ok false); Slept 1;
   Dispatched 1 ["show version"] (Ok ["VyOS 1.2.8"]);
   Evaluated (cond 0 wants_x) (Ok false);
   Evaluated (cond 1 wants_1_3_0) (Ok false); Slept 1].

(** Commands of a dry run: two to look, two to change. *)
Definition mixed_commands : list string :=
  ["show version"; "set system host-name r1"; "show interfaces";
   "delete system host-name"].


(** * Properties *)

(** ** Lists and counting *)

Section ListRemove.
Context `{EqDecision A}.
Implicit Types (l : list A) (x : A).

Lemma list_remove_app l1 x l2 :
  x ∉ l1 -> list_remove x (l1 ++ x :: l2) = Some (l1 ++ l2).
Proof.
  induction l1 as [|y l1 IH]; simpl; intros Hx.
  - by rewrite decide_True.
  - apply not_elem_of_cons in Hx as [Hxy Hx].
    rewrite decide_False by done. by rewrite IH.
Qed.

Lemma list_remove_Some l x l' :
  list_remove x l = Some l' ->
  exists l1 l2, l = l1 ++ x :: l2 /\ l' = l1 ++ l2 /\ x ∉ l1.
Proof.
  revert l'. induction l as [|y l IH]; simpl; intros l' H; [done|].
  destruct (decide (x = y)) as [->|Hne].
  - injection H as <-. exists [], l. split_and!; [done..|apply not_elem_of_nil].
  - destruct (list_remove x l) as [l0|] eqn:E; [|done].
    injection H as <-.
    destruct (IH l0 eq_refl) as (l1 & l2 & -> & -> & Hx).
    exists (y :: l1), l2. split_and!; [done..|].
    apply not_elem_of_cons. done.
Qed.
End ListRemove.

Lemma count_app f t1 t2 : count f (t1 ++ t2) = (count f t1 + count f t2)%nat.
Proof. unfold count. by rewrite List.filter_app, length_app. Qed.

Lemma count_cons f x t :
  count f (x :: t) = ((if f x then 1 else 0) + count f t)%nat.
Proof. unfold count. simpl. by destruct (f x). Qed.

Lemma count_zero f t :
  Forall (fun x => f x = false) t -> count f t = 0%nat.
Proof.
  induction 1 as [|x t Hx _ IH]; [done|].
  by rewrite count_cons, Hx, IH.
Qed.

(** A trace whose events before the last are all outside [P] can only
    be cut at an event in [P] at its very end. *)
Lemma cut_at_last (P : Event -> Prop) t0 x t1 y t2 :
  Forall (fun z => ~ P z) t0 -> P y ->
  t0 ++ [x] = t1 ++ y :: t2 -> t1 = t0 /\ y = x /\ t2 = [].
Proof.
  revert t1. induction t0 as [|z t0 IH]; intros t1 Hall Hy Heq.
  - destruct t1 as [|z1 t1]; simpl in Heq.
    + by injection Heq as <- <-.
    + injection Heq as _ Heq. by destruct t1.
  - apply Forall_cons in Hall as [Hz Hall].
    destruct t1 as [|z1 t1]; simpl in Heq.
    + injection Heq as -> _. done.
    + injection Heq as <- Heq.
      destruct (IH t1 Hall Hy Heq) as (-> & -> & ->). done.
Qed.

Lemma no_cut (P : Event -> Prop) t t1 y t2 :
  Forall (fun z => ~ P z) t -> P y -> t <> t1 ++ y :: t2.
Proof.
  intros Hall Hy ->. apply Forall_app in Hall as [_ Hall].
  apply Forall_cons in Hall as [Hn _]. done.
Qed.

(** ** Traces that stop *)

Lemma shape_cut {A} m (sat : Res A -> Prop) r t t1 x t2 :
  shape m sat r t -> t = t1 ++ x :: t2 -> stops m x ->
  t2 = [] /\ decided m sat x r.
Proof.
  intros [Hall|(t0 & x0 & -> & Hall & Hdec)] Heq Hx.
  - by destruct (no_cut (stops m) t t1 x t2).
  - destruct (cut_at_last (stops m) _ _ _ _ _ Hall Hx Heq) as (_ & -> & ->).
    done.
Qed.

Lemma shape_cons {A} m (sat : Res A -> Prop) r y t :
  ~ stops m y -> shape m sat r t -> shape m sat r (y :: t).
Proof.
  intros Hy [Hall|(t0 & x & -> & Hall & Hdec)].
  - left. by constructor.
  - right. exists (y :: t0), x. split_and!; [done| |done]. by constructor.
Qed.

Lemma shape_app {A} m (sat : Res A -> Prop) r t1 t :
  Forall (fun x => ~ stops m x) t1 -> shape m sat r t ->
  shape m sat r (t1 ++ t).
Proof.
  induction 1 as [|y t1 Hy _ IH]; intros Hs; [done|].
  cbn. apply shape_cons; auto.
Qed.

Lemma shape_last {A} m (sat : Res A -> Prop) r t0 x :
  Forall (fun x => ~ stops m x) t0 -> decided m sat x r ->
  shape m sat r (t0 ++ [x]).
Proof. intros Hall Hdec. right. by exists t0, x. Qed.

Lemma shape_map {A B} m (sat : Res A -> Prop) (sat' : Res B -> Prop) r r' t :
  shape m sat r t ->
  (forall e, r = Halt (uncaught e) -> r' = Halt (uncaught e)) ->
  (sat r -> sat' r') ->
  shape m sat' r' t.
Proof.
  intros [Hall|(t0 & x & -> & Hall & Hdec)] Hh Hs; [by left|].
  right. exists t0, x. split_and!; [done..|].
  destruct Hdec as [(e & He & Hr)|(Hm & Hx & Hr)].
  - left. exists e. auto.
  - right. auto.
Qed.

Lemma last_response_app prev t1 t2 :
  last_response prev (t1 ++ t2) = last_response (last_response prev t1) t2.
Proof.
  revert prev. induction t1 as [|x t1 IH]; intros prev; [done|].
  destruct x as [| ? ? []| |]; cbn; apply IH.
Qed.

Lemma last_response_no_dispatch prev t :
  Forall (fun x => is_dispatch x = false) t -> last_response prev t = prev.
Proof.
  induction 1 as [|x t Hx _ IH]; [done|].
  destruct x as [| ? ? []| |]; cbn; done.
Qed.

(** ** Evaluations in a trace *)

Lemma cut_in_app (x : Event) t1 t2 l1 l2 :
  t1 ++ x :: t2 = l1 ++ l2 -> x ∉ l1 ->
  exists k, t1 = l1 ++ k /\ l2 = k ++ x :: t2.
Proof.
  revert t1. induction l1 as [|y l1 IH]; intros t1 Heq Hx.
  - by exists t1.
  - apply not_elem_of_cons in Hx as [Hxy Hx].
    destruct t1 as [|z t1]; cbn in Heq.
    + by injection Heq as -> _.
    + injection Heq as -> Heq.
      destruct (IH _ Heq Hx) as (k & -> & ->). by exists k.
Qed.

Lemma prefix_sublist {A} (l1 l2 : list A) :
  l1 `prefix_of` l2 -> l1 `sublist_of` l2.
Proof. intros [k ->]. by apply sublist_inserts_r. Qed.

Lemma evaluated_of_app t1 t2 :
  evaluated_of (t1 ++ t2) = evaluated_of t1 ++ evaluated_of t2.
Proof.
  induction t1 as [|x t1 IH]; [done|].
  destruct x; cbn; by rewrite ?IH.
Qed.

Lemma once_NoDup t : NoDup (evaluated_of t) -> once t.
Proof.
  induction t as [|x t IH]; [done|].
  destruct x as [| |c [[|]|]|]; cbn; auto.
  all: intros [Hc Hnd]%NoDup_cons; auto.
Qed.

Lemma once_app t1 t2 :
  once t1 -> once t2 ->
  (forall c, Evaluated c (Ok true) ∈ t1 -> c ∉ evaluated_of t2) ->
  once (t1 ++ t2).
Proof.
  induction t1 as [|x t1 IH]; [done|]. intros H1 H2 Hx.
  assert (Htl : forall c, Evaluated c (Ok true) ∈ t1 -> c ∉ evaluated_of t2)
    by (intros c Hc; apply Hx; by right).
  destruct x as [| |c [[|]|]|]; cbn in *; auto.
  destruct H1 as [Hc H1]. split; [|auto].
  rewrite evaluated_of_app, elem_of_app. intros [?|Hin]; [done|].
  apply (Hx c); [left|done].
Qed.

Lemma once_cut t t1 c t2 :
  once t -> t = t1 ++ Evaluated c (Ok true) :: t2 -> c ∉ evaluated_of t2.
Proof.
  intros Ho ->. induction t1 as [|x t1 IH]; cbn in Ho.
  - by destruct Ho.
  - apply IH. destruct x as [| |c' [[|]|]|]; tauto.
Qed.

(** ** parse_commands in closed form *)

Lemma parse_commands_loop_spec check snapshot kept warnings :
  (check = true -> Forall (fun c => is_show c = true) kept) ->
  parse_commands_loop check snapshot (kept ++ snapshot) warnings =
    match List.find (fun c => negb (allowed c)) snapshot with
    | Some item => Halt (fail_json {[ "msg" := VStr (not_allowed_msg item) ]})
    | None =>
        Ret (kept ++ surviving check snapshot,
             warnings ++ dropped_warnings check snapshot)
    end.
Proof.
  revert kept warnings.
  induction snapshot as [|item rest IH]; intros kept warnings Hkept.
  - simpl. destruct check; simpl; by rewrite !app_nil_r.
  - cbn [parse_commands_loop List.find]. fold (allowed item).
    destruct (allowed item) eqn:Hal; simpl; [|done].
    fold (is_show item).
    assert (Hnext : parse_commands_loop check rest ((kept ++ [item]) ++ rest)
                      warnings = parse_commands_loop check rest
                                   (kept ++ item :: rest) warnings)
      by by rewrite <- app_assoc.
    destruct check; simpl.
    + specialize (Hkept eq_refl).
      destruct (is_show item) eqn:Hshow; simpl.
      * rewrite <- Hnext, IH
          by (intros _; apply Forall_app; split; [done|by constructor]).
        destruct (List.find _ rest); [done|]. simpl.
        by rewrite <- ?app_assoc.
      * rewrite list_remove_app.
        2:{ intros Hin. rewrite Forall_forall in Hkept.
            apply Hkept in Hin. congruence. }
        rewrite IH by done.
        destruct (List.find _ rest); [done|]. simpl.
        by rewrite <- ?app_assoc.
    + rewrite <- Hnext, IH by done.
      destruct (List.find _ rest); [done|]. simpl.
      by rewrite <- app_assoc.
Qed.

(** [parse_commands] fails on the first command outside the allow-list;
    otherwise it returns the commands that survive and the warnings for
    those that do not. *)
Lemma parse_commands_spec p :
  parse_commands p =
    match first_rejected p.(commands) with
    | Some item => Halt (fail_json {[ "msg" := VStr (not_allowed_msg item) ]})
    | None =>
        Ret (surviving p.(check_mode) p.(commands),
             dropped_warnings p.(check_mode) p.(commands))
    end.
Proof.
  unfold parse_commands.
  by apply (parse_commands_loop_spec _ _ [] []).
Qed.

(** ** The loops, one step at a time *)

Section Loops.
Context `{W : Collaborators}.
Implicit Types (m : MatchPolicy) (t : list Event) (c item : Conditional).
Implicit Types (conds snap : list Conditional) (resp : list string).

Lemma evaluate_cons m resp item rest conds :
  evaluate m resp (item :: rest) conds =
    let r := Conditional_call item.(raw) resp in
    match r with
    | Raise e => (Halt (uncaught e), [Evaluated item r])
    | Ok true =>
        match m with
        | any => (Ret [], [Evaluated item r])
        | all =>
            match list_remove item conds with
            | None => (Halt (uncaught remove_absent), [Evaluated item r])
            | Some conds' =>
                ((evaluate m resp rest conds').1,
                 Evaluated item r :: (evaluate m resp rest conds').2)
            end
        end
    | Ok false =>
        ((evaluate m resp rest conds).1,
         Evaluated item r :: (evaluate m resp rest conds).2)
    end.
Proof.
  cbn [evaluate]. unfold bind, emit, halt, ret.
  destruct (Conditional_call _ _) as [[|]|e]; cbn; [|by destruct evaluate|done].
  destruct m; [|done].
  destruct (list_remove _ _); [by destruct evaluate|done].
Qed.

Lemma poll_S m secs cmds n k conds prev :
  poll m secs cmds (S n) k conds prev =
    let r := run_api_commands k cmds false in
    match r with
    | Raise e => (Halt (uncaught e), [Dispatched k cmds r])
    | Ok resp =>
        match evaluate m resp conds conds with
        | (Halt o, te) => (Halt o, Dispatched k cmds r :: te)
        | (Ret [], te) => (Ret ([], Some resp), Dispatched k cmds r :: te)
        | (Ret (c :: cs), te) =>
            if secs <? 0 then
              (Halt (uncaught negative_sleep),
               Dispatched k cmds r :: te ++ [Slept secs])
            else
              ((poll m secs cmds n (S k) (c :: cs) (Some resp)).1,
               Dispatched k cmds r :: te ++ Slept secs ::
                 (poll m secs cmds n (S k) (c :: cs) (Some resp)).2)
        end
    end.
Proof.
  cbn [poll]. unfold bind, emit, halt, ret, sleep.
  destruct (run_api_commands _ _ _) as [resp|e]; cbn; [|done].
  destruct (evaluate _ _ _ _) as [[[|c cs]|o] te]; cbn; [| |done].
  - by rewrite app_nil_r.
  - destruct (secs <? 0); cbn; [done|].
    by destruct poll.
Qed.

(** *** What an evaluation pass records *)

Lemma evaluate_events m resp snap conds :
  Forall (fun x => exists c, c ∈ snap /\
                     x = Evaluated c (Conditional_call c.(raw) resp))
    (evaluate m resp snap conds).2.
Proof.
  revert conds. induction snap as [|item rest IH]; intros conds.
  - constructor.
  - assert (Hhd : exists c, c ∈ item :: rest /\
              Evaluated item (Conditional_call item.(raw) resp) =
              Evaluated c (Conditional_call c.(raw) resp))
      by (exists item; split; [left|done]).
    assert (Htl : forall conds',
              Forall (fun x => exists c, c ∈ item :: rest /\
                        x = Evaluated c (Conditional_call c.(raw) resp))
                (evaluate m resp rest conds').2).
    { intros conds'. eapply Forall_impl; [apply IH|].
      intros x (c & Hc & ->). exists c. split; [by right|done]. }
    rewrite evaluate_cons. cbn zeta.
    destruct (Conditional_call _ _) as [[|]|e] eqn:E; cbn.
    + destruct m.
      * destruct (list_remove _ _); cbn; constructor; auto.
      * constructor; auto.
    + constructor; auto.
    + constructor; auto.
Qed.

Lemma evaluate_no_dispatch m resp snap conds :
  dispatches (evaluate m resp snap conds).2 = 0%nat.
Proof.
  apply count_zero. eapply Forall_impl; [apply evaluate_events|].
  by intros x (c & _ & ->).
Qed.

Lemma evaluate_no_sleep m resp snap conds :
  sleeps (evaluate m resp snap conds).2 = 0%nat.
Proof.
  apply count_zero. eapply Forall_impl; [apply evaluate_events|].
  by intros x (c & _ & ->).
Qed.

(** *** The pending list after an evaluation pass *)

Lemma evaluate_settle m resp snap kept :
  NoDup (kept ++ snap) ->
  evaluate m resp snap (kept ++ snap) = settle m resp snap kept.
Proof.
  revert kept. induction snap as [|item rest IH]; intros kept Hnd.
  - cbn. by rewrite app_nil_r.
  - rewrite evaluate_cons. cbn. unfold evaluation.
    destruct (Conditional_call _ _) as [[|]|e]; [| |done].
    + destruct m; [|done].
      apply NoDup_app in Hnd as (Hk & Hdisj & Hs).
      apply NoDup_cons in Hs as [Hi Hs].
      rewrite list_remove_app.
      2:{ intros Hin. apply (Hdisj _ Hin). left. }
      rewrite IH; [done|].
      apply NoDup_app. split_and!; [done| |done].
      intros x Hx Hx'. apply (Hdisj _ Hx). by right.
    + replace (kept ++ item :: rest) with ((kept ++ [item]) ++ rest)
        by by rewrite <- app_assoc.
      rewrite IH; [done|]. by rewrite <- app_assoc.
Qed.

(** A pass that comes back either was cut short by a condition that
    holds (under [any]), or went through the whole list, keeping the
    conditions that do not hold. *)
Lemma settle_Ret m resp snap kept cs t :
  settle m resp snap kept = (Ret cs, t) ->
  (m = any /\ cs = [] /\ exists c, Evaluated c (Ok true) ∈ t) \/
  (cs = kept ++ filter (unmet resp) snap /\
   t = evaluation resp <$> snap /\
   Forall (fun c => exists b, Conditional_call c.(raw) resp = Ok b) snap /\
   (m = any -> Forall (unmet resp) snap)).
Proof.
  revert kept cs t. induction snap as [|item rest IH]; intros kept cs t.
  - cbn. intros [= <- <-]. right. rewrite app_nil_r.
    split_and!; [done..|constructor|by constructor].
  - cbn. unfold evaluation at 1 2 3 4.
    destruct (Conditional_call _ _) as [[|]|e] eqn:E; [| |done].
    + destruct m.
      * destruct (settle _ _ _ _) as [r' t'] eqn:Es. cbn.
        intros [= -> <-].
        destruct (IH _ _ _ Es) as [([=] & _)|(-> & -> & Hok & _)].
        right. rewrite decide_False by (unfold unmet; congruence).
        split_and!; [done| |by constructor; eauto|done].
        unfold evaluation at 2. by rewrite E.
      * intros [= <- <-]. left. split_and!; [done..|].
        exists item. left.
    + destruct (settle _ _ _ _) as [r' t'] eqn:Es. cbn.
      intros [= -> <-].
      destruct (IH _ _ _ Es) as [(-> & -> & c & Hc)|(-> & -> & Hok & Hany)].
      * left. split_and!; [done..|]. exists c. by right.
      * right. rewrite decide_True by done.
        split_and!; [by rewrite <- app_assoc| |by constructor; eauto|].
        -- unfold evaluation at 2. by rewrite E.
        -- intros Hm. constructor; [done|auto].
Qed.

Lemma evaluate_prefix m resp snap conds :
  evaluated_of (evaluate m resp snap conds).2 `prefix_of` snap.
Proof.
  revert conds. induction snap as [|item rest IH]; intros conds.
  - done.
  - rewrite evaluate_cons. cbn zeta.
    destruct (Conditional_call _ _) as [[|]|e]; cbn.
    + destruct m; [destruct (list_remove _ _)|]; cbn;
        apply prefix_cons; auto using prefix_nil.
    + apply prefix_cons, IH.
    + apply prefix_cons, prefix_nil.
Qed.

Lemma evaluate_sublist m resp snap conds cs t :
  evaluate m resp snap conds = (Ret cs, t) -> cs `sublist_of` conds.
Proof.
  revert conds cs t. induction snap as [|item rest IH]; intros conds cs t.
  - cbn. unfold ret. by intros [= <- <-].
  - rewrite evaluate_cons. cbn zeta.
    destruct (Conditional_call _ _) as [[|]|e]; [| |done].
    + destruct m.
      * destruct (list_remove _ _) as [conds'|] eqn:Er; [|done].
        destruct (evaluate _ _ _ _) as [r' t'] eqn:Ee. cbn.
        intros [= -> <-]. apply IH in Ee.
        apply list_remove_Some in Er as (l1 & l2 & -> & -> & _).
        etrans; [exact Ee|].
        apply sublist_app; [done|]. by apply sublist_cons.
      * intros [= <- <-]. apply sublist_nil_l.
    + destruct (evaluate _ _ _ _) as [r' t'] eqn:Ee. cbn.
      intros [= -> <-]. by apply IH in Ee.
Qed.

(** Under [all], a condition leaves the pending list only by
    evaluating true. *)
Lemma evaluate_all_cover resp snap conds cs t :
  evaluate all resp snap conds = (Ret cs, t) ->
  forall c, c ∈ conds -> c ∈ cs \/ Evaluated c (Ok true) ∈ t.
Proof.
  revert conds cs t. induction snap as [|item rest IH]; intros conds cs t.
  - cbn. unfold ret. intros [= <- <-]. auto.
  - rewrite evaluate_cons. cbn zeta.
    destruct (Conditional_call _ _) as [[|]|e]; [| |done].
    + destruct (list_remove _ _) as [conds'|] eqn:Er; [|done].
      destruct (evaluate _ _ _ _) as [r' t'] eqn:Ee. cbn.
      intros [= -> <-] c Hc.
      apply list_remove_Some in Er as (l1 & l2 & -> & -> & _).
      assert (c = item \/ c ∈ l1 ++ l2) as [->|Hc'].
      { rewrite !elem_of_app, elem_of_cons in *. tauto. }
      * right. left.
      * destruct (IH _ _ _ Ee c Hc'); [by left|right; by right].
    + destruct (evaluate _ _ _ _) as [r' t'] eqn:Ee. cbn.
      intros [= -> <-] c Hc.
      destruct (IH _ _ _ Ee c Hc); [by left|right; by right].
Qed.

(** *** Where the loops stop *)

Lemma evaluate_shape m resp snap conds :
  shape m (fun r => r = Ret [])
    (evaluate m resp snap conds).1 (evaluate m resp snap conds).2.
Proof.
  revert conds. induction snap as [|item rest IH]; intros conds.
  - left. constructor.
  - rewrite evaluate_cons. cbn zeta.
    destruct (Conditional_call _ _) as [[|]|e] eqn:E; cbn.
    + destruct m.
      * assert (Hns : ~ stops all (Evaluated item (Ok true))).
        { intros [[? [=]]|[[=] _]]. }
        destruct (list_remove _ _); cbn.
        -- by apply shape_cons.
        -- left. by repeat constructor.
      * apply (shape_last _ _ _ []); [constructor|].
        right. split_and!; [done| |done]. by exists item.
    + apply shape_cons; [|done].
      intros [[? [=]]|[_ [? [=]]]].
    + apply (shape_last _ _ _ []); [constructor|].
      left. by exists e.
Qed.

Lemma poll_shape m secs cmds n k conds prev :
  shape m (fun r => exists resp, r = Ret ([], Some resp))
    (poll m secs cmds n k conds prev).1 (poll m secs cmds n k conds prev).2.
Proof.
  revert k conds prev. induction n as [|n IH]; intros k conds prev.
  - left. constructor.
  - rewrite poll_S. cbn zeta.
    destruct (run_api_commands _ _ _) as [resp|e]; cbn.
    2:{ apply (shape_last _ _ _ []); [constructor|]. left. by exists e. }
    pose proof (evaluate_shape m resp conds conds) as He.
    assert (Hd : ~ stops m (Dispatched k cmds (Ok resp))).
    { intros [[? [=]]|[_ [? [=]]]]. }
    destruct (evaluate _ _ _ _) as [[[|c cs]|o] te]; cbn in *.
    + apply shape_cons; [done|].
      eapply shape_map; [exact He|done|]. intros _. by exists resp.
    + destruct He as [He|(t0 & x & _ & _ & [(e & _ & [=])|(_ & _ & [=])])].
      destruct (secs <? 0) eqn:Hsecs; cbn.
      * apply shape_cons; [done|]. apply shape_last; [done|].
        left. exists negative_sleep. cbn. by rewrite Hsecs.
      * apply shape_cons; [done|]. apply shape_app; [done|].
        apply shape_cons; [|apply IH].
        intros [[? Hx]|[_ [? [=]]]]. cbn in Hx. by rewrite Hsecs in Hx.
    + apply shape_cons; [done|].
      eapply shape_map; [exact He|by intros e [= ->]|done].
Qed.

(** *** The responses and the commands of a run *)

Lemma poll_last_response m secs cmds n k conds prev cs ro t :
  poll m secs cmds n k conds prev = (Ret (cs, ro), t) ->
  ro = last_response prev t.
Proof.
  revert k conds prev t. induction n as [|n IH]; intros k conds prev t.
  - cbn. unfold ret. by intros [= <- <- <-].
  - rewrite poll_S. cbn zeta.
    destruct (run_api_commands _ _ _) as [resp|e]; [|done].
    assert (Hte : Forall (fun x => is_dispatch x = false)
                    (evaluate m resp conds conds).2).
    { eapply Forall_impl; [apply evaluate_events|].
      by intros x (c & _ & ->). }
    destruct (evaluate _ _ _ _) as [[[|c' cs']|o] te]; cbn in Hte; [| |done].
    + intros [= <- <- <-]. cbn. by rewrite last_response_no_dispatch.
    + destruct (secs <? 0); [done|].
      destruct (poll _ _ _ _ _ _ _) as [r' t'] eqn:E. cbn.
      intros [= -> <-]. cbn.
      rewrite last_response_app, (last_response_no_dispatch _ te Hte).
      cbn. by apply IH in E.
Qed.

Lemma poll_dispatched m secs cmds n k conds prev :
  Forall (fun x => forall k' cmds' r, x = Dispatched k' cmds' r ->
            cmds' = cmds /\ r = run_api_commands k' cmds false /\
            (k <= k' < k + n)%nat)
    (poll m secs cmds n k conds prev).2.
Proof.
  revert k conds prev. induction n as [|n IH]; intros k conds prev.
  - constructor.
  - assert (Hhd : forall r, r = run_api_commands k cmds false ->
              forall k' cmds' r', Dispatched k cmds r = Dispatched k' cmds' r' ->
              cmds' = cmds /\ r' = run_api_commands k' cmds false /\
              (k <= k' < k + S n)%nat).
    { intros r -> k' cmds' r' [= <- <- <-]. split_and!; [done..|lia|lia]. }
    rewrite poll_S. cbn zeta.
    destruct (run_api_commands _ _ _) as [resp|e] eqn:Hr; cbn.
    2:{ constructor; [|constructor]. by apply Hhd. }
    assert (Hte : Forall (fun x => forall k' cmds' r,
                    x = Dispatched k' cmds' r ->
                    cmds' = cmds /\ r = run_api_commands k' cmds false /\
                    (k <= k' < k + S n)%nat)
                    (evaluate m resp conds conds).2).
    { eapply Forall_impl; [apply evaluate_events|].
      by intros x (c & _ & ->). }
    destruct (evaluate _ _ _ _) as [[[|c cs]|o] te]; cbn in *.
    + constructor; [by apply Hhd|done].
    + destruct (secs <? 0); cbn.
      * constructor; [by apply Hhd|]. apply Forall_app. split; [done|].
        by repeat constructor.
      * constructor; [by apply Hhd|]. apply Forall_app. split; [done|].
        constructor; [done|].
        eapply Forall_impl; [apply IH|]. cbn.
        intros x Hx k' cmds' r Heq.
        destruct (Hx _ _ _ Heq) as (? & ? & ?). split_and!; [done..|lia|lia].
    + constructor; [by apply Hhd|done].
Qed.

(** *** The pending list across attempts *)

Lemma poll_evaluated_in m secs cmds n k conds prev c :
  c ∈ evaluated_of (poll m secs cmds n k conds prev).2 -> c ∈ conds.
Proof.
  revert k conds prev. induction n as [|n IH]; intros k conds prev.
  - by intros ?%elem_of_nil.
  - rewrite poll_S. cbn zeta.
    destruct (run_api_commands _ _ _) as [resp|e]; cbn;
      [|by intros ?%elem_of_nil].
    pose proof (evaluate_prefix m resp conds conds) as Hpre.
    apply prefix_sublist, sublist_subseteq in Hpre.
    destruct (evaluate _ _ _ _) as [[[|c' cs]|o] te] eqn:Ee; cbn in *.
    1,3: by intros Hc; apply Hpre.
    apply evaluate_sublist, sublist_subseteq in Ee.
    destruct (secs <? 0); cbn; rewrite evaluated_of_app, elem_of_app; cbn.
    + intros [Hc|?%elem_of_nil]; [|done]. by apply Hpre.
    + intros [Hc|Hc]; [by apply Hpre|].
      apply IH in Hc. by apply Ee.
Qed.

Lemma poll_sublist m secs cmds n k conds prev cs ro t :
  poll m secs cmds n k conds prev = (Ret (cs, ro), t) ->
  cs `sublist_of` conds.
Proof.
  revert k conds prev t. induction n as [|n IH]; intros k conds prev t.
  - cbn. unfold ret. by intros [= <- <- <-].
  - rewrite poll_S. cbn zeta.
    destruct (run_api_commands _ _ _) as [resp|e]; [|done].
    destruct (evaluate _ _ _ _) as [[[|c' cs']|o] te] eqn:Ee; [| |done].
    + intros [= <- <- <-]. apply sublist_nil_l.
    + destruct (secs <? 0); [done|].
      destruct (poll _ _ _ _ _ _ _) as [r' t'] eqn:E. cbn.
      intros [= -> <-]. apply IH in E. apply evaluate_sublist in Ee.
      by etrans.
Qed.

(** Under [all], a condition leaves the pending list only by
    evaluating true on some attempt. *)
Lemma poll_all_cover secs cmds n k conds prev cs ro t :
  poll all secs cmds n k conds prev = (Ret (cs, ro), t) ->
  forall c, c ∈ conds -> c ∈ cs \/ Evaluated c (Ok true) ∈ t.
Proof.
  revert k conds prev t. induction n as [|n IH]; intros k conds prev t.
  - cbn. unfold ret. intros [= <- <- <-]. auto.
  - rewrite poll_S. cbn zeta.
    destruct (run_api_commands _ _ _) as [resp|e]; [|done].
    destruct (evaluate _ _ _ _) as [[[|c' cs']|o] te] eqn:Ee; [| |done].
    + intros [= <- <- <-] c Hc. right. right.
      destruct (evaluate_all_cover _ _ _ _ _ Ee c Hc) as [?%elem_of_nil|?];
        done.
    + destruct (secs <? 0); [done|].
      destruct (poll _ _ _ _ _ _ _) as [r' t'] eqn:E. cbn.
      intros [= -> <-] c Hc.
      destruct (evaluate_all_cover _ _ _ _ _ Ee c Hc) as [Hc'|Hc'].
      * destruct (IH _ _ _ _ E c Hc') as [?|?]; [by left|].
        right. right. rewrite elem_of_app. right. by right.
      * right. right. rewrite elem_of_app. by left.
Qed.

(** An attempt that leaves conditions pending has evaluated every
    condition it started with, and kept those that do not hold. *)
Lemma evaluate_pending m resp conds c cs te :
  NoDup conds ->
  evaluate m resp conds conds = (Ret (c :: cs), te) ->
  c :: cs = filter (unmet resp) conds /\ te = evaluation resp <$> conds /\
  Forall (fun c => exists b, Conditional_call c.(raw) resp = Ok b) conds.
Proof.
  intros Hnd He.
  pose proof (evaluate_settle m resp conds [] Hnd) as Hs. cbn in Hs.
  rewrite Hs in He.
  apply settle_Ret in He as [(_ & [=] & _)|(-> & -> & Hok & _)]. done.
Qed.

(** After such an attempt every condition is either still pending or
    has evaluated true. *)
Lemma evaluate_cover m resp conds c cs te :
  NoDup conds ->
  evaluate m resp conds conds = (Ret (c :: cs), te) ->
  forall c', c' ∈ conds -> c' ∈ c :: cs \/ Evaluated c' (Ok true) ∈ te.
Proof.
  intros Hnd He c' Hc'.
  destruct (evaluate_pending _ _ _ _ _ _ Hnd He) as (-> & -> & Hok).
  rewrite Forall_forall in Hok. destruct (Hok _ Hc') as [[|] Hb].
  - right. apply list_elem_of_fmap. exists c'. split; [|done].
    unfold evaluation. by rewrite Hb.
  - left. by apply list_elem_of_filter.
Qed.

Lemma evaluation_true resp conds c :
  Evaluated c (Ok true) ∈ evaluation resp <$> conds -> ~ unmet resp c.
Proof.
  intros (c' & [= <- Hc] & _)%list_elem_of_fmap. unfold unmet. congruence.
Qed.

(** A condition that is still pending at the end has never evaluated
    true. *)
Lemma poll_pending_never_true m secs cmds n k conds prev cs ro t :
  NoDup conds ->
  poll m secs cmds n k conds prev = (Ret (cs, ro), t) ->
  forall c, c ∈ cs -> Evaluated c (Ok true) ∉ t.
Proof.
  revert k conds prev t. induction n as [|n IH]; intros k conds prev t Hnd.
  - cbn. unfold ret. intros [= <- <- <-] c _. apply not_elem_of_nil.
  - rewrite poll_S. cbn zeta.
    destruct (run_api_commands _ _ _) as [resp|e]; [|done].
    destruct (evaluate _ _ _ _) as [[[|c' cs']|o] te] eqn:Ee; [| |done].
    + by intros [= <- <- <-] c ?%elem_of_nil.
    + destruct (secs <? 0); [done|].
      destruct (poll _ _ _ _ _ _ _) as [r' t'] eqn:E. cbn.
      intros [= -> <-] c Hc.
      destruct (evaluate_pending _ _ _ _ _ _ Hnd Ee) as (Hcs & -> & _).
      assert (Hnd' : NoDup (c' :: cs'))
        by (rewrite Hcs; by apply NoDup_filter).
      pose proof (poll_sublist _ _ _ _ _ _ _ _ _ _ E) as Hsub.
      apply sublist_subseteq in Hsub.
      rewrite elem_of_cons, elem_of_app, elem_of_cons.
      intros [[=]|[Hin|[[=]|Hin]]].
      * apply evaluation_true in Hin. apply Hsub in Hc.
        rewrite Hcs in Hc. by apply list_elem_of_filter in Hc as [? _].
      * by apply (IH _ _ _ _ Hnd' E c Hc).
Qed.

(** No condition is evaluated again once it has evaluated true. *)
Lemma poll_once m secs cmds n k conds prev :
  NoDup conds -> once (poll m secs cmds n k conds prev).2.
Proof.
  revert k conds prev. induction n as [|n IH]; intros k conds prev Hnd.
  - done.
  - rewrite poll_S. cbn zeta.
    destruct (run_api_commands _ _ _) as [resp|e]; cbn; [|done].
    pose proof (evaluate_prefix m resp conds conds) as Hpre.
    assert (Hte : once (evaluate m resp conds conds).2).
    { apply once_NoDup. apply prefix_sublist in Hpre.
      by apply (sublist_NoDup _ _ Hnd). }
    destruct (evaluate _ _ _ _) as [[[|c' cs']|o] te] eqn:Ee; cbn in *;
      [done| |done].
    destruct (evaluate_pending _ _ _ _ _ _ Hnd Ee) as (Hcs & Hev & _).
    destruct (secs <? 0); cbn.
    + apply once_app; [done..|]. intros c _. apply not_elem_of_nil.
    + apply once_app; [done|cbn|].
      * apply IH. rewrite Hcs. by apply NoDup_filter.
      * intros c Hc Hin. cbn in Hin. apply poll_evaluated_in in Hin.
        rewrite Hev in Hc. apply evaluation_true in Hc.
        rewrite Hcs in Hin. by apply list_elem_of_filter in Hin as [? _].
Qed.

(** A dispatch that is not the first of the loop comes after an
    evaluation that found a condition unmet. *)
Lemma poll_retry m secs cmds n k conds prev t1 k' cmds' r' t2 :
  NoDup conds ->
  (poll m secs cmds n k conds prev).2 = t1 ++ Dispatched k' cmds' r' :: t2 ->
  t1 <> [] ->
  exists c, Evaluated c (Ok false) ∈ t1.
Proof.
  intros Hnd. destruct n as [|n]; [by destruct t1|].
  rewrite poll_S. cbn zeta.
  destruct (run_api_commands _ _ _) as [resp|e]; cbn;
    [|by destruct t1 as [|? []]].
  assert (Hte : forall te' : list Event,
            te' ⊆ (evaluate m resp conds conds).2 ->
            Dispatched k' cmds' r' ∉ te').
  { intros te' Hsub Hin. apply Hsub in Hin.
    pose proof (evaluate_events m resp conds conds) as Hev.
    rewrite Forall_forall in Hev. by destruct (Hev _ Hin) as (? & _ & ?). }
  destruct t1 as [|x t1]; [done|]. cbn. intros Heq _.
  destruct (evaluate _ _ _ _) as [[[|c' cs']|o] te] eqn:Ee; cbn in *.
  1,3: injection Heq as _ ->; destruct (Hte (t1 ++ Dispatched k' cmds' r' :: t2));
         [done|rewrite elem_of_app; right; left].
  destruct (evaluate_pending _ _ _ _ _ _ Hnd Ee) as (Hcs & -> & _).
  assert (Hc' : c' ∈ filter (unmet resp) conds) by (rewrite <- Hcs; left).
  apply list_elem_of_filter in Hc' as [Hun Hc'].
  assert (Hev : Evaluated c' (Ok false) ∈ evaluation resp <$> conds).
  { apply list_elem_of_fmap. exists c'. split; [|done].
    unfold evaluation. by rewrite Hun. }
  assert (Hcut : exists k0, t1 = (evaluation resp <$> conds) ++ k0).
  { destruct (secs <? 0); injection Heq as _ Heq; symmetry in Heq;
      apply cut_in_app in Heq as (k0 & -> & _); eauto. }
  destruct Hcut as (k0 & ->). exists c'. right. rewrite elem_of_app. by left.
Qed.

(** Whatever policy is in force, a run of the loop that leaves
    conditions pending has seen every other condition evaluate true. *)
Lemma poll_cover m secs cmds n k conds prev c cs ro t :
  NoDup conds ->
  poll m secs cmds n k conds prev = (Ret (c :: cs, ro), t) ->
  forall c', c' ∈ conds -> c' ∈ c :: cs \/ Evaluated c' (Ok true) ∈ t.
Proof.
  revert k conds prev t. induction n as [|n IH]; intros k conds prev t Hnd.
  - cbn. unfold ret. intros [= <- <- <-]. auto.
  - rewrite poll_S. cbn zeta.
    destruct (run_api_commands _ _ _) as [resp|e]; [|done].
    destruct (evaluate _ _ _ _) as [[[|c1 cs1]|o] te] eqn:Ee; [done| |done].
    destruct (secs <? 0); [done|].
    destruct (poll _ _ _ _ _ _ _) as [r' t'] eqn:E. cbn.
    intros [= -> <-] c' Hc'.
    destruct (evaluate_pending _ _ _ _ _ _ Hnd Ee) as (Hcs & _ & _).
    assert (Hnd' : NoDup (c1 :: cs1)) by (rewrite Hcs; by apply NoDup_filter).
    destruct (evaluate_cover _ _ _ _ _ _ Hnd Ee c' Hc') as [Hin|Hin].
    + destruct (IH _ _ _ _ Hnd' E c' Hin) as [?|?]; [by left|].
      right. right. rewrite elem_of_app. right. by right.
    + right. right. rewrite elem_of_app. by left.
Qed.

(** *** How the loops give up *)

Lemma evaluate_Halt m resp snap conds o t :
  evaluate m resp snap conds = (Halt o, t) -> exists e, o = uncaught e.
Proof.
  revert conds t. induction snap as [|item rest IH]; intros conds t.
  - done.
  - rewrite evaluate_cons. cbn zeta.
    destruct (Conditional_call _ _) as [[|]|e].
    + destruct m; [|done].
      destruct (list_remove _ _); [|intros [= <- <-]; by eexists].
      destruct (evaluate _ _ _ _) as [r' t'] eqn:E. cbn.
      intros [= -> <-]. eauto.
    + destruct (evaluate _ _ _ _) as [r' t'] eqn:E. cbn.
      intros [= -> <-]. eauto.
    + intros [= <- <-]. by eexists.
Qed.

Lemma poll_Halt m secs cmds n k conds prev o t :
  poll m secs cmds n k conds prev = (Halt o, t) -> exists e, o = uncaught e.
Proof.
  revert k conds prev t. induction n as [|n IH]; intros k conds prev t.
  - done.
  - rewrite poll_S. cbn zeta.
    destruct (run_api_commands _ _ _) as [resp|e];
      [|intros [= <- <-]; by eexists].
    destruct (evaluate _ _ _ _) as [[[|c cs]|o'] te] eqn:Ee; [done| |].
    + destruct (secs <? 0); [intros [= <- <-]; by eexists|].
      destruct (poll _ _ _ _ _ _ _) as [r' t'] eqn:E. cbn.
      intros [= -> <-]. eauto.
    + intros [= <- <-]. by apply evaluate_Halt in Ee.
Qed.

(** The loop opens with the dispatch of its first attempt. *)
Lemma poll_head m secs cmds n k conds prev x t :
  (poll m secs cmds n k conds prev).2 = x :: t ->
  exists r, x = Dispatched k cmds r.
Proof.
  destruct n as [|n]; [done|]. rewrite poll_S. cbn zeta.
  destruct (run_api_commands _ _ _) as [resp|e]; cbn;
    [|intros [= <- _]; by eexists].
  destruct (evaluate _ _ _ _) as [[[|c cs]|o'] te]; cbn;
    [| destruct (secs <? 0); cbn |].
  all: intros [= <- _]; by eexists.
Qed.

(** *** Counting dispatches and sleeps *)

Lemma poll_counts m secs cmds n k conds prev r t :
  poll m secs cmds n k conds prev = (r, t) ->
  (dispatches t <= n)%nat /\ (sleeps t <= dispatches t)%nat /\
  match r with
  | Ret (_ :: _, _) => dispatches t = n /\ sleeps t = n
  | Ret ([], ro) =>
      (t = [] /\ n = 0%nat /\ conds = [] /\ ro = prev) \/
      (dispatches t = S (sleeps t) /\ is_Some ro)
  | Halt _ => True
  end.
Proof.
  revert k conds prev r t.
  induction n as [|n IH]; intros k conds prev r t.
  - cbn. unfold ret. intros [= <- <-]. cbn.
    split_and!; [lia..|]. destruct conds; [by left|done].
  - rewrite poll_S. cbn zeta.
    unfold dispatches, sleeps in *.
    destruct (run_api_commands _ _ _) as [resp|e].
    2:{ intros [= <- <-]. cbn. split_and!; [lia..|done]. }
    pose proof (evaluate_no_dispatch m resp conds conds) as Hd.
    pose proof (evaluate_no_sleep m resp conds conds) as Hs.
    unfold dispatches, sleeps in *.
    destruct (evaluate _ _ _ _) as [[[|c cs]|o] te]; cbn [snd] in Hd, Hs.
    + intros [= <- <-]. rewrite !count_cons, Hd, Hs. cbn.
      split_and!; [lia..|]. right. split; [done|by eexists].
    + destruct (secs <? 0).
      * intros [= <- <-].
        rewrite !count_cons, !count_app, Hd, Hs. cbn.
        split_and!; [lia..|done].
      * destruct (poll _ _ _ _ _ _ _) as [r' t'] eqn:E. cbn.
        intros [= <- <-].
        destruct (IH _ _ _ _ _ E) as (IH1 & IH2 & IH3).
        rewrite !count_cons, !count_app, !count_cons, Hd, Hs. cbn.
        split_and!; [lia..|].
        destruct r' as [[[|c' cs'] ro]|o]; [|lia|done].
        destruct IH3 as [(_ & _ & [=] & _)|[IH3 Hro]].
        right. split; [lia|done].
    + intros [= <- <-]. rewrite !count_cons, Hd, Hs. cbn.
      split_and!; [lia..|done].
Qed.

(** *** Compiling the conditionals *)

Lemma objects_ident i exprs c : c ∈ objects i exprs -> (i <= c.(ident))%nat.
Proof.
  revert i. induction exprs as [|e rest IH]; intros i; cbn.
  - by intros ?%elem_of_nil.
  - intros [->|Hc%IH]%elem_of_cons; cbn; lia.
Qed.

Lemma objects_NoDup i exprs : NoDup (objects i exprs).
Proof.
  revert i. induction exprs as [|e rest IH]; intros i; cbn.
  - constructor.
  - apply NoDup_cons. split; [|apply IH].
    intros Hc%objects_ident. cbn in Hc. lia.
Qed.

(** An object carries the expression found at its position. *)
Lemma objects_lookup i exprs c :
  c ∈ objects i exprs -> exprs !! (c.(ident) - i)%nat = Some c.(raw).
Proof.
  revert i. induction exprs as [|e rest IH]; intros i; cbn.
  - by intros ?%elem_of_nil.
  - intros [->|Hc]%elem_of_cons; cbn.
    + by rewrite Nat.sub_diag.
    + pose proof (objects_ident _ _ _ Hc) as Hi.
      apply IH in Hc.
      replace (ident c - i)%nat with (S (ident c - S i)) by lia. done.
Qed.

Lemma compile_Ok i exprs cs t :
  compile i exprs = (Ok cs, t) ->
  cs = objects i exprs /\
  t = (fun s => Compiled s (Ok tt)) <$> exprs /\
  Forall (fun s => Conditional_init s = Ok tt) exprs.
Proof.
  revert i cs t. induction exprs as [|e rest IH]; intros i cs t; cbn.
  - intros [= <- <-]. split_and!; [done..|constructor].
  - destruct (Conditional_init e) as [[]|e'] eqn:Ei; [|done].
    destruct (compile (S i) rest) as [[cs'|e'] t'] eqn:Ec; [|done].
    intros [= <- <-]. destruct (IH _ _ _ Ec) as (-> & -> & Hall).
    split_and!; [done..|by constructor].
Qed.

(** The trace of [compile] holds one constructor call per expression,
    in order, up to the first that raises. *)
Lemma compile_trace i exprs :
  exists n, (compile i exprs).2 =
    (fun s => Compiled s (Conditional_init s)) <$> take n exprs.
Proof.
  revert i. induction exprs as [|e rest IH]; intros i; cbn.
  - by exists 0%nat.
  - destruct (Conditional_init e) as [[]|e'] eqn:Ei.
    + destruct (IH (S i)) as [n Hn].
      destruct (compile (S i) rest) as [r t]. cbn in *.
      exists (S n). cbn. by rewrite Ei, Hn.
    + exists 1%nat. cbn. by rewrite Ei, take_0.
Qed.

Lemma compile_no_stop m i exprs :
  Forall (fun x => ~ stops m x) (compile i exprs).2.
Proof.
  destruct (compile_trace i exprs) as [n ->].
  apply Forall_fmap, Forall_forall. intros c _ [[? [=]]|[_ [? [=]]]].
Qed.

Lemma compile_only_compiles i exprs :
  Forall (fun x => is_compile x = true) (compile i exprs).2.
Proof.
  destruct (compile_trace i exprs) as [n ->].
  by apply Forall_fmap, Forall_forall.
Qed.

(** *** The ways through main *)

Lemma main_paths p : main_path p (main p).1 (main p).2.
Proof.
  unfold main. rewrite parse_commands_spec.
  destruct (first_rejected _) as [item|] eqn:Ef; cbn; [by constructor|].
  destruct (compile 0 _) as [[cs|e] t] eqn:Ec.
  - apply compile_Ok in Ec as (-> & -> & Hall).
    destruct (poll _ _ _ _ _ _ _) as [r tp] eqn:Ep.
    pose proof (path_polled p r tp Ef Hall Ep) as Hp.
    by destruct r.
  - pose proof (path_malformed p e t Ef Ec) as Hp. by destruct e.
Qed.

End Loops.

(** * The claims *)

Section Claims.
Context `{W : Collaborators}.

Lemma main_path_of p o t : main p = (o, t) -> main_path p o t.
Proof. intros H. pose proof (main_paths p) as Hp. by rewrite H in Hp. Qed.

Lemma first_rejected_None cmds c :
  first_rejected cmds = None -> c ∈ cmds -> allowed c = true.
Proof.
  intros Hf Hc%list_elem_of_In.
  apply (List.find_none _ _ Hf) in Hc. by destruct (allowed c).
Qed.

Lemma first_rejected_Some cmds item :
  first_rejected cmds = Some item -> item ∈ cmds /\ allowed item = false.
Proof.
  intros [Hin Hf]%List.find_some. split; [by apply list_elem_of_In|].
  by destruct (allowed item).
Qed.

Lemma surviving_elem check cmds c :
  c ∈ surviving check cmds -> c ∈ cmds /\ (check = true -> is_show c = true).
Proof.
  destruct check; cbn; [|done].
  intros [Hin Hs]%list_elem_of_In%List.filter_In.
  split; [by apply list_elem_of_In|done].
Qed.

(** No event of the compilation is a dispatch or a sleep. *)
Lemma compiled_counts (f : Event -> bool) (exprs : list string) :
  (forall s r, f (Compiled s r) = false) ->
  count f ((fun s => Compiled s (Ok tt)) <$> exprs) = 0%nat.
Proof.
  intros Hf. apply count_zero, Forall_fmap, Forall_forall. intros s _. apply Hf.
Qed.

(** The events of the compilation stop nothing and evaluate nothing. *)
Lemma compiled_no_stop m (exprs : list string) :
  Forall (fun x => ~ stops m x) ((fun s => Compiled s (Ok tt)) <$> exprs).
Proof.
  apply Forall_fmap, Forall_forall. intros s _ [[? [=]]|[_ [? [=]]]].
Qed.

Lemma compiled_no_dispatch (exprs : list string) :
  Forall (fun x => is_dispatch x = false)
    ((fun s => Compiled s (Ok tt)) <$> exprs).
Proof. by apply Forall_fmap, Forall_forall. Qed.

Lemma compiled_evaluated_of (exprs : list string) :
  evaluated_of ((fun s => Compiled s (Ok tt)) <$> exprs) = [].
Proof. by induction exprs. Qed.

Lemma not_in_compiled (exprs : list string) x :
  is_compile x = false -> x ∉ (fun s => Compiled s (Ok tt)) <$> exprs.
Proof. intros Hx (s & -> & _)%list_elem_of_fmap. done. Qed.

Lemma compile_elem i exprs r t x :
  compile i exprs = (r, t) -> x ∈ t -> is_compile x = true.
Proof.
  intros Hc Hx. pose proof (compile_only_compiles i exprs) as Hall.
  rewrite Hc, Forall_forall in Hall. by apply Hall.
Qed.

Lemma elem_of_middle (x : Event) t1 t2 : x ∈ t1 ++ x :: t2.
Proof. rewrite elem_of_app. right. left. Qed.

Lemma rejected_has_no_conditions item :
  ({[ "msg" := VStr item ]} : gmap string PyVal) !! "failed_conditions" = None.
Proof. by apply lookup_singleton_ne. Qed.

(** An event that stops the loops is the last of the run and decides
    its outcome: the exception propagates, or (under [any]) the module
    exits with the response of the last dispatch. *)
Lemma main_stops p o t t1 x t2 :
  main p = (o, t) -> t = t1 ++ x :: t2 -> stops p.(match_) x ->
  t2 = [] /\
  ((exists e, halts_with x = Some e /\ o = uncaught e) \/
   (p.(match_) = any /\ satisfied x /\
    exists resp, last_response None t = Some resp /\
      o = exit_json
            (success_result
               (dropped_warnings p.(check_mode) p.(commands)) resp))).
Proof.
  intros Hp%main_path_of Ht Hx.
  destruct Hp as [item Hf|e t Hf Hcomp|r tp Hf _ Hpoll].
  - by destruct t1.
  - pose proof (compile_no_stop p.(match_) 0 (default [] p.(wait_for))) as Hall.
    rewrite Hcomp in Hall. by destruct (no_cut _ _ _ _ _ Hall Hx Ht).
  - pose proof (poll_shape p.(match_) p.(interval)
                  (surviving p.(check_mode) p.(commands))
                  (Z.to_nat p.(retries)) 0
                  (objects 0 (default [] p.(wait_for))) None) as Hs.
    rewrite Hpoll in Hs. cbn in Hs.
    apply (shape_app _ _ _ _ _ (compiled_no_stop _ (default [] p.(wait_for))))
      in Hs.
    destruct (shape_cut _ _ _ _ _ _ _ Hs Ht Hx)
      as [-> [(e & He & ->)|(Hm & Hsat & resp & ->)]].
    + split; [done|]. left. by exists e.
    + split; [done|]. right. split_and!; [done..|].
      exists resp. split; [|done].
      apply poll_last_response in Hpoll.
      rewrite last_response_app.
      by rewrite (last_response_no_dispatch _ _ (compiled_no_dispatch _)).
Qed.

(** C10: a command that starts with none of the allowed prefixes makes
    the module fail before anything is dispatched (the trace is empty
    and the outcome is the [fail_json] naming a rejected command); so
    every command of every dispatch is a command of the input that
    starts with an allowed prefix, and with [show] in check mode. *)
Theorem dispatched_commands_are_allowed p o t :
  main p = (o, t) ->
  (forall c, c ∈ p.(commands) -> allowed c = false ->
     t = [] /\
     exists item, item ∈ p.(commands) /\ allowed item = false /\
       o = fail_json {[ "msg" := VStr (not_allowed_msg item) ]}) /\
  (forall k cmds r c, Dispatched k cmds r ∈ t -> c ∈ cmds ->
     c ∈ p.(commands) /\ allowed c = true /\
     (p.(check_mode) = true -> is_show c = true)).
Proof.
  intros Hp%main_path_of. split.
  - intros c Hc Hal.
    destruct Hp as [item Hf|e t Hf _|r tp Hf _ _].
    2,3: apply (first_rejected_None _ _ Hf) in Hc; congruence.
    apply first_rejected_Some in Hf as [Hin Hrej]. split; [done|].
    by exists item.
  - intros k cmds r c Hd Hc.
    destruct Hp as [item Hf|e t Hf Hcomp|r' tp Hf _ Hpoll].
    + by apply elem_of_nil in Hd.
    + pose proof (compile_only_compiles 0 (default [] p.(wait_for))) as Hall.
      rewrite Hcomp in Hall. rewrite Forall_forall in Hall.
      by apply Hall in Hd.
    + apply elem_of_app in Hd as [Hd|Hd].
      { by apply list_elem_of_fmap in Hd as (? & [=] & _). }
      pose proof (poll_dispatched p.(match_) p.(interval)
                    (surviving p.(check_mode) p.(commands))
                    (Z.to_nat p.(retries)) 0
                    (objects 0 (default [] p.(wait_for))) None) as Hall.
      rewrite Hpoll in Hall. rewrite Forall_forall in Hall.
      destruct (Hall _ Hd _ _ _ eq_refl) as (-> & _ & _).
      apply surviving_elem in Hc as [Hin Hshow].
      split_and!; [done| |done].
      by apply (first_rejected_None _ _ Hf).
Qed.

(** C8: the loop dispatches at most [retries] times, and the dispatches
    are those of the attempts 1 to [retries]: the [k]-th call (counted
    from 0) only happens for [k < retries]. *)
Theorem dispatches_bounded_by_retries p :
  0 <= p.(retries) ->
  Z.of_nat (dispatches (main p).2) <= p.(retries) /\
  (forall k cmds r, Dispatched k cmds r ∈ (main p).2 ->
     Z.of_nat k + 1 <= p.(retries)).
Proof.
  intros Hr.
  destruct (main_paths p) as [item Hf|e t Hf Hcomp|r' tp Hf _ Hpoll].
  - split; [cbn; lia|]. by intros k cmds r ?%elem_of_nil.
  - pose proof (compile_only_compiles 0 (default [] p.(wait_for))) as Hall.
    rewrite Hcomp in Hall. cbn in Hall. split.
    + unfold dispatches. rewrite count_zero; [lia|].
      eapply Forall_impl; [exact Hall|]. by intros [].
    + intros k cmds r Hd. rewrite Forall_forall in Hall.
      by apply Hall in Hd.
  - split.
    + unfold dispatches. rewrite count_app, compiled_counts by done.
      apply poll_counts in Hpoll as (Hn & _). unfold dispatches in Hn. lia.
    + intros k cmds r [Hd|Hd]%elem_of_app.
      { by apply list_elem_of_fmap in Hd as (? & [=] & _). }
      pose proof (poll_dispatched p.(match_) p.(interval)
                    (surviving p.(check_mode) p.(commands))
                    (Z.to_nat p.(retries)) 0
                    (objects 0 (default [] p.(wait_for))) None) as Hall.
      rewrite Hpoll in Hall. rewrite Forall_forall in Hall.
      destruct (Hall _ Hd _ _ _ eq_refl) as (_ & _ & Hk). lia.
Qed.

(** C7: when an expression of [wait_for] cannot be compiled, nothing is
    dispatched: the run does not end in [exit_json], its trace holds
    no dispatch and no sleep, only constructor calls, and these are
    the expressions of [wait_for] in order, each at most once, up to
    the one that raises. *)
Theorem malformed_expression_is_fatal p o t s e :
  s ∈ default [] p.(wait_for) -> Conditional_init s = Raise e ->
  main p = (o, t) ->
  dispatches t = 0%nat /\ sleeps t = 0%nat /\
  (forall kw, o <> exit_json kw) /\
  exists n, t = (fun s => Compiled s (Conditional_init s))
                  <$> take n (default [] p.(wait_for)).
Proof.
  intros Hs He Hp%main_path_of.
  destruct Hp as [item Hf|e' t Hf Hcomp|r' tp Hf Hall _].
  - split_and!; [done..|]. by exists 0%nat.
  - pose proof (compile_only_compiles 0 (default [] p.(wait_for))) as Hall.
    destruct (compile_trace 0 (default [] p.(wait_for))) as [n Hn].
    rewrite Hcomp in Hall, Hn. cbn in Hall, Hn.
    split_and!.
    + apply count_zero. eapply Forall_impl; [exact Hall|]. by intros [].
    + apply count_zero. eapply Forall_impl; [exact Hall|]. by intros [].
    + by destruct e'.
    + by exists n.
  - rewrite Forall_forall in Hall. apply Hall in Hs. congruence.
Qed.

(** C1 (as amended): sleep follows every attempt that leaves
    conditions pending, the final one included.  A run that ends with
    the report of unmet conditions has dispatched [retries] times and
    slept as many times; a run that ends in success has slept once
    less than it has dispatched, so not at all when the first attempt
    succeeds. *)
Theorem sleep_follows_every_unmet_attempt p o t :
  main p = (o, t) ->
  (forall kw, o = fail_json kw -> is_Some (kw !! "failed_conditions") ->
     dispatches t = Z.to_nat p.(retries) /\ sleeps t = dispatches t) /\
  (forall kw, o = exit_json kw -> dispatches t = S (sleeps t)).
Proof.
  intros Hp%main_path_of.
  destruct Hp as [item Hf|e t Hf Hcomp|r tp Hf _ Hpoll].
  - split; [|done]. intros kw [= <-] [v Hv].
    by rewrite rejected_has_no_conditions in Hv.
  - split; [|by destruct e]. intros kw Hkw [v Hv]. destruct e; try done.
    injection Hkw as <-. by rewrite rejected_has_no_conditions in Hv.
  - unfold dispatches, sleeps.
    rewrite !count_app, !compiled_counts by done. cbn.
    pose proof (poll_counts _ _ _ _ _ _ _ _ _ Hpoll) as (_ & _ & Hc).
    unfold dispatches, sleeps in Hc.
    destruct r as [[[|c cs] [resp|]]|o'].
    + split; [done|]. intros kw _.
      destruct Hc as [(_ & _ & _ & [=])|[Hc _]]. done.
    + done.
    + split; [|done]. intros kw _ _. lia.
    + split; [|done]. intros kw _ _. lia.
    + apply poll_Halt in Hpoll as [e ->]. done.
Qed.

(** C2 (as amended): without conditions and with [retries] at least 1,
    the commands are dispatched exactly once and, when that dispatch
    returns, the module exits with its response; the trace is that
    single dispatch. *)
Theorem no_conditions_one_dispatch p resp :
  default [] p.(wait_for) = [] -> 1 <= p.(retries) ->
  first_rejected p.(commands) = None ->
  run_api_commands 0 (surviving p.(check_mode) p.(commands)) false = Ok resp ->
  main p =
    (exit_json
       (success_result (dropped_warnings p.(check_mode) p.(commands)) resp),
     [Dispatched 0 (surviving p.(check_mode) p.(commands)) (Ok resp)]).
Proof.
  intros Hwf Hr Hf Hrun. unfold main.
  rewrite parse_commands_spec, Hf, Hwf. cbn [compile].
  destruct (Z.to_nat p.(retries)) as [|n] eqn:En; [lia|].
  rewrite poll_S. cbn zeta. by rewrite Hrun.
Qed.

(** Outside the amended C2: when [retries] allows no attempt and there
    is no condition, nothing is dispatched and [main] ends on the read
    of [responses], which was never assigned. *)
Lemma no_attempt_no_response p :
  default [] p.(wait_for) = [] -> p.(retries) <= 0 ->
  first_rejected p.(commands) = None ->
  main p = (uncaught (UnboundLocalError "responses"), []).
Proof.
  intros Hwf Hr Hf. unfold main.
  rewrite parse_commands_spec, Hf, Hwf. cbn [compile].
  by replace (Z.to_nat p.(retries)) with 0%nat by lia.
Qed.

(** C3: a dispatch that fails is the last event of the run, which ends
    with the exception of the transport propagating out of [main]; and
    a dispatch that is not the first comes after an evaluation that
    found a condition unmet. *)
Theorem transport_failure_is_fatal p o t :
  main p = (o, t) ->
  (forall t1 k cmds e t2,
     t = t1 ++ Dispatched k cmds (Raise e) :: t2 ->
     t2 = [] /\ o = uncaught e) /\
  (forall t1 k cmds r t2,
     t = t1 ++ Dispatched k cmds r :: t2 -> (0 < k)%nat ->
     exists c, Evaluated c (Ok false) ∈ t1).
Proof.
  intros Hmain. split.
  - intros t1 k cmds e t2 Ht.
    destruct (main_stops _ _ _ _ _ _ Hmain Ht)
      as [-> [(e' & [= <-] & ->)|(_ & [? [=]] & _)]]; [|done].
    left. by eexists.
  - intros t1 k cmds r t2 Ht Hk.
    apply main_path_of in Hmain.
    destruct Hmain as [item Hf|e t Hf Hcomp|r' tp Hf _ Hpoll].
    + by destruct t1.
    + pose proof (elem_of_middle (Dispatched k cmds r) t1 t2) as Hin.
      rewrite <- Ht in Hin. by apply (compile_elem _ _ _ _ _ Hcomp) in Hin.
    + symmetry in Ht. apply cut_in_app in Ht as (k0 & -> & Htp);
        [|by apply not_in_compiled].
      assert (Htp' : (poll p.(match_) p.(interval)
                        (surviving p.(check_mode) p.(commands))
                        (Z.to_nat p.(retries)) 0
                        (objects 0 (default [] p.(wait_for))) None).2 =
                     k0 ++ Dispatched k cmds r :: t2) by by rewrite Hpoll.
      destruct k0 as [|x k0].
      * apply poll_head in Htp' as [? [= Hk0 _ _]]. lia.
      * apply poll_retry in Htp' as [c Hc];
          [|apply objects_NoDup|done].
        exists c. rewrite elem_of_app. by right.
Qed.

(** C4 (as amended): an exception raised by the evaluation of a
    condition, such as an index out of the range of the response, is
    not turned into an unmet condition: that evaluation is the last
    event of the run, and the run ends with the exception propagating
    out of [main]. *)
Theorem evaluation_error_propagates p o t t1 c e t2 :
  main p = (o, t) -> t = t1 ++ Evaluated c (Raise e) :: t2 ->
  t2 = [] /\ o = uncaught e.
Proof.
  intros Hmain Ht.
  destruct (main_stops _ _ _ _ _ _ Hmain Ht)
    as [-> [(e' & [= <-] & ->)|(_ & [? [=]] & _)]]; [|done].
  left. by eexists.
Qed.

(** C5: under [any], a condition that evaluates true is the last event
    of the run: no other condition is evaluated, nothing is
    dispatched and no sleep happens after it; the module exits with
    the response of the last dispatch and reports no failed
    condition. *)
Theorem any_policy_stops_at_first_true p o t t1 c t2 :
  p.(match_) = any ->
  main p = (o, t) -> t = t1 ++ Evaluated c (Ok true) :: t2 ->
  t2 = [] /\
  exists resp, last_response None t = Some resp /\
    o = exit_json
          (success_result (dropped_warnings p.(check_mode) p.(commands)) resp).
Proof.
  intros Hany Hmain Ht.
  destruct (main_stops _ _ _ _ _ _ Hmain Ht)
    as [-> [(e' & [=] & _)|(_ & _ & Hres)]]; [|done].
  right. split; [done|]. by exists c.
Qed.

(** C6: under [all], a condition that has evaluated true is not
    evaluated again in the rest of the run, and the module exits
    successfully only if every compiled condition has evaluated true
    at some point of the run. *)
Theorem all_policy_is_monotonic p o t :
  p.(match_) = all -> main p = (o, t) ->
  (forall t1 c t2,
     t = t1 ++ Evaluated c (Ok true) :: t2 -> c ∉ evaluated_of t2) /\
  (forall kw, o = exit_json kw ->
     forall c, c ∈ objects 0 (default [] p.(wait_for)) ->
     Evaluated c (Ok true) ∈ t).
Proof.
  intros Hall Hp%main_path_of.
  destruct Hp as [item Hf|e t Hf Hcomp|r tp Hf _ Hpoll].
  - split; [|done]. intros t1 c t2 Ht. by destruct t1.
  - split; [|by destruct e]. intros t1 c t2 Ht.
    pose proof (elem_of_middle (Evaluated c (Ok true)) t1 t2) as Hin.
    rewrite <- Ht in Hin. by apply (compile_elem _ _ _ _ _ Hcomp) in Hin.
  - split.
    + intros t1 c t2 Ht. eapply once_cut; [|exact Ht].
      apply once_app.
      * apply once_NoDup. rewrite compiled_evaluated_of. constructor.
      * pose proof (poll_once p.(match_) p.(interval)
                      (surviving p.(check_mode) p.(commands))
                      (Z.to_nat p.(retries)) 0
                      (objects 0 (default [] p.(wait_for))) None
                      (objects_NoDup _ _)) as Ho.
        by rewrite Hpoll in Ho.
      * intros c' Hc'. by apply not_in_compiled in Hc'.
    + rewrite Hall in Hpoll.
      destruct r as [[[|c' cs] [resp|]]|o']; try done.
      * intros kw _ c Hc. rewrite elem_of_app. right.
        by destruct (poll_all_cover _ _ _ _ _ _ _ _ _ Hpoll c Hc)
          as [?%elem_of_nil|?].
      * apply poll_Halt in Hpoll as [e ->]. done.
Qed.

Lemma raw_objects i (exprs : list string) : raw <$> objects i exprs = exprs.
Proof.
  revert i. induction exprs as [|s rest IH]; intros i; [done|].
  cbn. by rewrite IH.
Qed.

(** C9: a run that ends with unmet conditions calls [fail_json] with
    the message and the [failed_conditions] list and nothing else (no
    [stdout], no [stdout_lines]).  The list holds the [raw] strings of
    the pending conditions: expressions of [wait_for], in the order of
    [wait_for], each the expression found at the position of its
    condition; the pending conditions have never evaluated true, and
    every other condition has. *)
Theorem failure_reports_pending_expressions p kw t :
  main p = (fail_json kw, t) -> is_Some (kw !! "failed_conditions") ->
  exists pending,
    pending <> [] /\
    kw = failure_result (raw <$> pending) /\
    kw !! "failed_conditions" = Some (VList (raw <$> pending)) /\
    kw !! "msg" =
      Some (VStr "One or more conditional statements have not been satisfied") /\
    kw !! "stdout" = None /\ kw !! "stdout_lines" = None /\
    raw <$> pending `sublist_of` default [] p.(wait_for) /\
    pending `sublist_of` objects 0 (default [] p.(wait_for)) /\
    (forall c, c ∈ pending ->
       default [] p.(wait_for) !! c.(ident) = Some c.(raw) /\
       Evaluated c (Ok true) ∉ t) /\
    (forall c, c ∈ objects 0 (default [] p.(wait_for)) ->
       c ∈ pending \/ Evaluated c (Ok true) ∈ t).
Proof.
  intros Hp%main_path_of [v Hv].
  inversion Hp as [item Hf Ho|e t' Hf Hcomp Ho|r tp Hf _ Hpoll Ho]; subst.
  - by rewrite rejected_has_no_conditions in Hv.
  - destruct e; try done. injection Ho as <-.
    by rewrite rejected_has_no_conditions in Hv.
  - destruct r as [[[|c cs] ro]|o']; [by destruct ro| |].
    2:{ apply poll_Halt in Hpoll as [e ->]. done. }
    injection Ho as <-. exists (c :: cs).
    pose proof (poll_sublist _ _ _ _ _ _ _ _ _ _ Hpoll) as Hsub.
    split_and!.
    + done.
    + done.
    + unfold failure_result.
      rewrite lookup_insert_ne by done. by rewrite lookup_singleton_eq.
    + unfold failure_result. by rewrite lookup_insert_eq.
    + done.
    + done.
    + rewrite <- (raw_objects 0 (default [] p.(wait_for))).
      by apply fmap_sublist.
    + done.
    + intros c' Hc'. split.
      * apply sublist_subseteq in Hsub. apply Hsub in Hc'.
        apply objects_lookup in Hc'. by rewrite Nat.sub_0_r in Hc'.
      * rewrite elem_of_app. intros [Hin|Hin].
        { by apply not_in_compiled in Hin. }
        by apply (poll_pending_never_true _ _ _ _ _ _ _ _ _ _
                    (objects_NoDup _ _) Hpoll c' Hc').
    + intros c' Hc'.
      destruct (poll_cover _ _ _ _ _ _ _ _ _ _ _ (objects_NoDup _ _) Hpoll
                  c' Hc') as [?|?]; [by left|].
      right. rewrite elem_of_app. by right.
Qed.

End Claims.

(** * Concrete runs: witnesses and counterexamples *)

(** The spec's scenario: the version shows up at the third attempt;
    three dispatches, two sleeps, success. *)
Example third_attempt_succeeds :
  main (W := upgraded) (run ["show version"] [wants_1_3_0] all 3) =
    (exit_json (success_result [] ["VyOS 1.3.0"]),
     [Compiled wants_1_3_0 (Ok tt);
      Dispatched 0 ["show version"] (Ok ["VyOS 1.2.8"]);
      Evaluated (cond 0 wants_1_3_0) (Ok false); Slept 1;
      Dispatched 1 ["show version"] (Ok ["VyOS 1.2.8"]);
      Evaluated (cond 0 wants_1_3_0) (Ok false); Slept 1;
      Dispatched 2 ["show version"] (Ok ["VyOS 1.3.0"]);
      Evaluated (cond 0 wants_1_3_0) (Ok true)]).
Proof. vm_compute. reflexivity. Qed.

(** The same against a device that is never upgraded: three
    dispatches, and a sleep after each of them. *)
Example never_upgraded :
  main (W := old_version) (run ["show version"] [wants_1_3_0] all 3) =
    (fail_json (failure_result [wants_1_3_0]), stale_trace).
Proof. vm_compute. reflexivity. Qed.

(** C1, counterexample: against the device that is never upgraded the
    budget of three attempts is exhausted after three dispatches and
    three sleeps, not two. *)
Lemma sleeps_only_between_attempts_fails : ~ sleeps_only_between_attempts.
Proof.
  intros H.
  destruct (H old_version (run ["show version"] [wants_1_3_0] all 3)
              (failure_result [wants_1_3_0]) stale_trace) as [Hex _].
  specialize (Hex never_upgraded).
  assert (Hfc : is_Some (failure_result [wants_1_3_0] !! "failed_conditions"))
    by (vm_compute; eauto).
  specialize (Hex Hfc). vm_compute in Hex. discriminate.
Qed.

(** Witness of C1 as amended: the run above. *)
Lemma sleep_follows_every_unmet_attempt_witness :
  main (W := old_version) (run ["show version"] [wants_1_3_0] all 3) =
    (fail_json (failure_result [wants_1_3_0]), stale_trace) /\
  is_Some (failure_result [wants_1_3_0] !! "failed_conditions") /\
  dispatches stale_trace = Z.to_nat 3 /\
  sleeps stale_trace = dispatches stale_trace.
Proof.
  assert (Hrun : main (W := old_version)
                   (run ["show version"] [wants_1_3_0] all 3) =
                 (fail_json (failure_result [wants_1_3_0]), stale_trace))
    by (vm_compute; reflexivity).
  assert (Hfc : is_Some (failure_result [wants_1_3_0] !! "failed_conditions"))
    by (vm_compute; eauto).
  split; [exact Hrun|]. split; [exact Hfc|].
  exact (proj1 (sleep_follows_every_unmet_attempt _ _ _ Hrun) _ eq_refl Hfc).
Defined.

(** With [retries = 0] and no condition nothing is dispatched, and the
    run ends on the unassigned [responses]. *)
Example zero_retries_no_conditions :
  main (W := old_version) (run ["show version"] [] all 0) =
    (uncaught (UnboundLocalError "responses"), []).
Proof. vm_compute. reflexivity. Qed.

(** C2, counterexample: the run above makes no dispatch at all, where
    the claim wants one. *)
Lemma one_dispatch_whatever_retries_fails : ~ one_dispatch_whatever_retries.
Proof.
  intros H.
  destruct (H old_version (run ["show version"] [] all 0) ["VyOS 1.2.8"])
    as [Hd _]; [reflexivity..|].
  rewrite zero_retries_no_conditions in Hd. discriminate.
Qed.

(** Witness of C2 as amended: five retries allowed, one dispatch made. *)
Lemma no_conditions_one_dispatch_witness :
  default [] (run ["show version"] [] all 5).(wait_for) = [] /\
  1 <= (run ["show version"] [] all 5).(retries) /\
  first_rejected (run ["show version"] [] all 5).(commands) = None /\
  run_api_commands (Collaborators := old_version) 0 ["show version"] false
    = Ok ["VyOS 1.2.8"] /\
  main (W := old_version) (run ["show version"] [] all 5) =
    (exit_json (success_result [] ["VyOS 1.2.8"]),
     [Dispatched 0 ["show version"] (Ok ["VyOS 1.2.8"])]).
Proof.
  split; [reflexivity|]. split; [vm_compute; discriminate|].
  split; [reflexivity|]. split; [reflexivity|].
  apply (no_conditions_one_dispatch (W := old_version)
           (run ["show version"] [] all 5) ["VyOS 1.2.8"]);
    [reflexivity|vm_compute; discriminate|reflexivity|reflexivity].
Defined.

(** Witness of C3: the second dispatch is refused. *)
Lemma transport_failure_is_fatal_witness :
  main (W := unreachable) (run ["show version"] [wants_1_3_0] all 3) =
    (uncaught refused,
     unreachable_trace ++ Dispatched 1 ["show version"] (Raise refused) :: []) /\
  (([] : list Event) = [] /\ uncaught refused = uncaught refused) /\
  (0 < 1)%nat /\
  exists c, Evaluated c (Ok false) ∈ unreachable_trace.
Proof.
  assert (Hrun : main (W := unreachable)
                   (run ["show version"] [wants_1_3_0] all 3) =
                 (uncaught refused,
                  unreachable_trace ++
                    Dispatched 1 ["show version"] (Raise refused) :: []))
    by (vm_compute; reflexivity).
  assert (Hk : (0 < 1)%nat) by lia.
  split; [exact Hrun|]. split; [|split; [exact Hk|]].
  - exact (proj1 (transport_failure_is_fatal _ _ _ Hrun) _ _ _ _ _ eq_refl).
  - exact (proj2 (transport_failure_is_fatal _ _ _ Hrun) _ _ _ _ _ eq_refl Hk).
Defined.

(** The spec's scenario for C4: [result[5]] against two answers.  The
    run ends at the first evaluation, with the exception. *)
Example sixth_of_two :
  main (W := two_answers)
    (run ["show version"; "show interfaces"] [wants_sixth] all 3) =
    (uncaught out_of_range,
     sixth_trace ++ Evaluated (cond 0 wants_sixth) (Raise out_of_range) :: []).
Proof. vm_compute. reflexivity. Qed.

(** C4, counterexample: in that run the index error is neither turned
    into an unmet condition nor retried: the outcome is the exception,
    not the report of unmet conditions. *)
Lemma index_error_is_downgraded_fails : ~ index_error_is_downgraded.
Proof.
  intros H.
  destruct (H two_answers
              (run ["show version"; "show interfaces"] [wants_sixth] all 3)
              wants_sixth "list index out of range")
    as [Ho _].
  - reflexivity.
  - reflexivity.
  - reflexivity.
  - intros k. exists ["VyOS 1.3.0"; "eth0 up"]. split; reflexivity.
  - vm_compute. discriminate.
  - rewrite sixth_of_two in Ho. discriminate.
Qed.

(** Witness of C4 as amended. *)
Lemma evaluation_error_propagates_witness :
  main (W := two_answers)
    (run ["show version"; "show interfaces"] [wants_sixth] all 3) =
    (uncaught out_of_range,
     sixth_trace ++ Evaluated (cond 0 wants_sixth) (Raise out_of_range) :: []) /\
  ([] : list Event) = [] /\ uncaught out_of_range = uncaught out_of_range.
Proof.
  assert (Hrun : main (W := two_answers)
                   (run ["show version"; "show interfaces"] [wants_sixth] all 3) =
                 (uncaught out_of_range,
                  sixth_trace ++
                    Evaluated (cond 0 wants_sixth) (Raise out_of_range) :: []))
    by (vm_compute; reflexivity).
  split; [exact Hrun|].
  exact (evaluation_error_propagates _ _ _ _ _ _ _ Hrun eq_refl).
Defined.

(** Witness of C5: the second of three conditions holds at the first
    attempt; the third is not evaluated. *)
Lemma any_policy_stops_at_first_true_witness :
  (run ["show version"] [wants_x; wants_vyos; wants_1_3_0] any 3).(match_)
    = any /\
  main (W := old_version)
    (run ["show version"] [wants_x; wants_vyos; wants_1_3_0] any 3) =
    (exit_json (success_result [] ["VyOS 1.2.8"]),
     any_trace ++ Evaluated (cond 1 wants_vyos) (Ok true) :: []) /\
  ([] : list Event) = [] /\
  exists resp,
    last_response None
      (any_trace ++ Evaluated (cond 1 wants_vyos) (Ok true) :: []) = Some resp /\
    exit_json (success_result [] ["VyOS 1.2.8"]) =
    exit_json (success_result [] resp).
Proof.
  assert (Hrun : main (W := old_version)
                   (run ["show version"] [wants_x; wants_vyos; wants_1_3_0]
                      any 3) =
                 (exit_json (success_result [] ["VyOS 1.2.8"]),
                  any_trace ++ Evaluated (cond 1 wants_vyos) (Ok true) :: []))
    by (vm_compute; reflexivity).
  split; [reflexivity|]. split; [exact Hrun|].
  exact (any_policy_stops_at_first_true (W := old_version)
           (run ["show version"] [wants_x; wants_vyos; wants_1_3_0] any 3)
           _ _ _ _ _ eq_refl Hrun eq_refl).
Defined.

(** Witness of C6: one condition holds at once, the other at the third
    attempt. *)
Lemma all_policy_is_monotonic_witness :
  (run ["show version"] [wants_vyos; wants_1_3_0] all 3).(match_) = all /\
  main (W := upgraded) (run ["show version"] [wants_vyos; wants_1_3_0] all 3) =
    (exit_json (success_result [] ["VyOS 1.3.0"]), upgrade_trace) /\
  (cond 0 wants_vyos ∉ evaluated_of (drop 4 upgrade_trace)) /\
  Evaluated (cond 1 wants_1_3_0) (Ok true) ∈ upgrade_trace.
Proof.
  assert (Hrun : main (W := upgraded)
                   (run ["show version"] [wants_vyos; wants_1_3_0] all 3) =
                 (exit_json (success_result [] ["VyOS 1.3.0"]), upgrade_trace))
    by (vm_compute; reflexivity).
  assert (Hin : cond 1 wants_1_3_0 ∈
                objects 0 (default []
                  (run ["show version"] [wants_vyos; wants_1_3_0] all 3).(wait_for)))
    by (vm_compute; repeat constructor).
  split; [reflexivity|]. split; [exact Hrun|]. split.
  - exact (proj1 (all_policy_is_monotonic (W := upgraded)
                    (run ["show version"] [wants_vyos; wants_1_3_0] all 3)
                    _ _ eq_refl Hrun)
             (take 3 upgrade_trace) (cond 0 wants_vyos) (drop 4 upgrade_trace)
             eq_refl).
  - exact (proj2 (all_policy_is_monotonic (W := upgraded)
                    (run ["show version"] [wants_vyos; wants_1_3_0] all 3)
                    _ _ eq_refl Hrun) _ eq_refl _ Hin).
Defined.

(** Witness of C7: the second expression is malformed; the third is
    not even compiled, and nothing is dispatched. *)
Lemma malformed_expression_is_fatal_witness :
  frobnicate ∈ default []
    (run ["show version"] [wants_vyos; frobnicate; wants_x] all 3).(wait_for) /\
  Conditional_init (Collaborators := old_version) frobnicate = Raise malformed /\
  main (W := old_version)
    (run ["show version"] [wants_vyos; frobnicate; wants_x] all 3) =
    (fail_json {[ "msg" := VStr "malformed expression: result[0] frobnicate 'x'" ]},
     [Compiled wants_vyos (Ok tt); Compiled frobnicate (Raise malformed)]) /\
  dispatches [Compiled wants_vyos (Ok tt); Compiled frobnicate (Raise malformed)]
    = 0%nat.
Proof.
  assert (Hin : frobnicate ∈ default []
            (run ["show version"] [wants_vyos; frobnicate; wants_x] all 3).(wait_for))
    by (vm_compute; repeat constructor).
  assert (Hraise : Conditional_init (Collaborators := old_version) frobnicate
                   = Raise malformed) by (vm_compute; reflexivity).
  assert (Hrun : main (W := old_version)
            (run ["show version"] [wants_vyos; frobnicate; wants_x] all 3) =
            (fail_json {[ "msg" := VStr "malformed expression: result[0] frobnicate 'x'" ]},
             [Compiled wants_vyos (Ok tt); Compiled frobnicate (Raise malformed)]))
    by (vm_compute; reflexivity).
  split; [exact Hin|]. split; [exact Hraise|]. split; [exact Hrun|].
  exact (proj1 (malformed_expression_is_fatal _ _ _ _ _ Hin Hraise Hrun)).
Defined.

(** Witness of C8: three retries, three dispatches. *)
Lemma dispatches_bounded_by_retries_witness :
  0 <= (run ["show version"] [wants_1_3_0] all 3).(retries) /\
  Z.of_nat (dispatches
    (main (W := old_version) (run ["show version"] [wants_1_3_0] all 3)).2)
    <= 3.
Proof.
  assert (Hr : 0 <= (run ["show version"] [wants_1_3_0] all 3).(retries))
    by (vm_compute; discriminate).
  split; [exact Hr|].
  exact (proj1 (dispatches_bounded_by_retries (W := old_version) _ Hr)).
Defined.

(** Witness of C9: the run against the device that is never upgraded
    reports the one expression of [wait_for]. *)
Lemma failure_reports_pending_expressions_witness :
  main (W := old_version) (run ["show version"] [wants_1_3_0] all 3) =
    (fail_json (failure_result [wants_1_3_0]), stale_trace) /\
  is_Some (failure_result [wants_1_3_0] !! "failed_conditions") /\
  exists pending,
    pending <> [] /\
    failure_result [wants_1_3_0] = failure_result (raw <$> pending) /\
    failure_result [wants_1_3_0] !! "failed_conditions"
      = Some (VList (raw <$> pending)) /\
    failure_result [wants_1_3_0] !! "msg" =
      Some (VStr "One or more conditional statements have not been satisfied") /\
    failure_result [wants_1_3_0] !! "stdout" = None /\
    failure_result [wants_1_3_0] !! "stdout_lines" = None /\
    raw <$> pending `sublist_of` [wants_1_3_0] /\
    pending `sublist_of` objects 0 [wants_1_3_0] /\
    (forall c, c ∈ pending ->
       [wants_1_3_0] !! c.(ident) = Some c.(raw) /\
       Evaluated c (Ok true) ∉ stale_trace) /\
    (forall c, c ∈ objects 0 [wants_1_3_0] ->
       c ∈ pending \/ Evaluated c (Ok true) ∈ stale_trace).
Proof.
  assert (Hrun : main (W := old_version)
                   (run ["show version"] [wants_1_3_0] all 3) =
                 (fail_json (failure_result [wants_1_3_0]), stale_trace))
    by (vm_compute; reflexivity).
  assert (Hfc : is_Some (failure_result [wants_1_3_0] !! "failed_conditions"))
    by (vm_compute; eauto).
  split; [exact Hrun|]. split; [exact Hfc|].
  exact (failure_reports_pending_expressions _ _ _ Hrun Hfc).
Defined.

(** Witness of C10: a command outside the allow-list; nothing is
    dispatched. *)
Lemma dispatched_commands_are_allowed_witness :
  main (W := old_version) (run ["show version"; "reboot now"] [] all 3) =
    (fail_json {[ "msg" := VStr (not_allowed_msg "reboot now") ]}, []) /\
  "reboot now" ∈ (run ["show version"; "reboot now"] [] all 3).(commands) /\
  allowed "reboot now" = false /\
  ([] : list Event) = [] /\
  exists item,
    item ∈ (run ["show version"; "reboot now"] [] all 3).(commands) /\
    allowed item = false /\
    fail_json {[ "msg" := VStr (not_allowed_msg "reboot now") ]} =
    fail_json {[ "msg" := VStr (not_allowed_msg item) ]}.
Proof.
  assert (Hrun : main (W := old_version)
                   (run ["show version"; "reboot now"] [] all 3) =
                 (fail_json {[ "msg" := VStr (not_allowed_msg "reboot now") ]},
                  []))
    by (vm_compute; reflexivity).
  assert (Hin : "reboot now" ∈
                (run ["show version"; "reboot now"] [] all 3).(commands))
    by (vm_compute; repeat constructor).
  split; [exact Hrun|]. split; [exact Hin|]. split; [reflexivity|].
  exact (proj1 (dispatched_commands_are_allowed _ _ _ Hrun) _ Hin eq_refl).
Defined.

(** In check mode the commands that are not [show] commands are
    dropped, with a warning each, and only the rest is dispatched. *)
Example check_mode_drops_changes :
  main (W := old_version)
    {| commands := ["show version"; "set system host-name r1"; "show version"];
       wait_for := None; match_ := all; retries := 10; interval := 1;
       check_mode := true |} =
    (exit_json
       (success_result [check_mode_warning "set system host-name r1"]
          ["VyOS 1.2.8"]),
     [Dispatched 0 ["show version"; "show version"] (Ok ["VyOS 1.2.8"])]).
Proof. vm_compute. reflexivity. Qed.

(** * Further properties of the module *)

(** ** parse_commands *)

Lemma startswith_app (s p : string) :
  startswith s p = true <-> exists rest, s = p +:+ rest.
Proof.
  revert s. induction p as [|a p IH]; intros s.
  - split; [intros _; by exists s|intros _; by destruct s].
  - destruct s as [|b s].
    + split; [done|]. intros [rest Hr]. discriminate Hr.
    + change (startswith (String b s) (String a p))
        with (if decide (a = b) then startswith s p else false).
      destruct (decide (a = b)) as [->|Hne].
      * rewrite IH. split; intros [rest Hr]; exists rest.
        -- change (String b p +:+ rest) with (String b (p +:+ rest)).
           by rewrite Hr.
        -- change (String b p +:+ rest) with (String b (p +:+ rest)) in Hr.
           by injection Hr.
      * split; [done|]. intros [rest Hr].
        change (String a p +:+ rest) with (String a (p +:+ rest)) in Hr.
        injection Hr as Hab _. congruence.
Qed.

(** X1: a command is accepted exactly when it is one of the five verbs
    of [API_COMMANDS] followed by any text at all (no word boundary is
    asked for). *)
Theorem allowed_iff_verb_prefix (c : string) :
  allowed c = true <->
  exists verb rest, verb ∈ API_COMMANDS /\ c = verb +:+ rest.
Proof.
  unfold allowed, startswith_any. rewrite List.existsb_exists. split.
  - intros (verb & Hin & [rest Hr]%startswith_app).
    exists verb, rest. split; [by apply list_elem_of_In|done].
  - intros (verb & rest & Hin & Hr). exists verb.
    split; [by apply list_elem_of_In|]. apply startswith_app. by exists rest.
Qed.

Lemma first_rejected_app l1 item l2 :
  Forall (fun c => allowed c = true) l1 -> allowed item = false ->
  first_rejected (l1 ++ item :: l2) = Some item.
Proof.
  intros Hall Hrej. unfold first_rejected.
  induction Hall as [|c l1 Hc _ IH]; cbn [List.find app].
  - by rewrite Hrej.
  - by rewrite Hc.
Qed.

Lemma first_rejected_allowed cmds :
  Forall (fun c => allowed c = true) cmds -> first_rejected cmds = None.
Proof.
  unfold first_rejected. induction 1 as [|c l Hc _ IH]; [done|].
  cbn [List.find]. by rewrite Hc.
Qed.

(** X2: [parse_commands] fails on the first command, in the order of
    the list, that is outside the allow-list, with the message that
    names it; check mode and the commands that follow play no part,
    and no command removed earlier in check mode makes [list.remove]
    fail first. *)
Theorem parse_commands_rejects_first p l1 item l2 :
  p.(commands) = l1 ++ item :: l2 ->
  Forall (fun c => allowed c = true) l1 -> allowed item = false ->
  parse_commands p =
    Halt (fail_json {[ "msg" := VStr (not_allowed_msg item) ]}).
Proof.
  intros Hc Hall Hrej. rewrite parse_commands_spec, Hc.
  by rewrite first_rejected_app.
Qed.

(** X3: outside check mode, a list of allowed commands comes back
    unchanged and without warnings. *)
Theorem parse_commands_keeps_allowed p :
  p.(check_mode) = false ->
  Forall (fun c => allowed c = true) p.(commands) ->
  parse_commands p = Ret (p.(commands), []).
Proof.
  intros Hcheck Hall.
  by rewrite parse_commands_spec, first_rejected_allowed, Hcheck.
Qed.

(** X4: in check mode, of a list of allowed commands exactly the [show]
    commands come back, in their order and with their repetitions;
    there is one warning per command left out, in the order of the
    list, so that commands kept and warnings add up to the input. *)
Theorem parse_commands_check_mode p :
  p.(check_mode) = true ->
  Forall (fun c => allowed c = true) p.(commands) ->
  parse_commands p =
    Ret (List.filter is_show p.(commands),
         check_mode_warning <$>
           List.filter (fun c => negb (is_show c)) p.(commands)) /\
  (length (List.filter is_show p.(commands)) +
   length (check_mode_warning <$>
             List.filter (fun c => negb (is_show c)) p.(commands)) =
   length p.(commands))%nat.
Proof.
  intros Hcheck Hall. split.
  - by rewrite parse_commands_spec, first_rejected_allowed, Hcheck.
  - rewrite length_fmap. clear. induction p.(commands) as [|c l IH]; [done|].
    cbn. destruct (is_show c); cbn; lia.
Qed.

Lemma filter_show_twice cmds :
  List.filter is_show (List.filter is_show cmds) = List.filter is_show cmds.
Proof.
  induction cmds as [|c l IH]; [done|]. cbn.
  destruct (is_show c) eqn:E; cbn; by rewrite ?E, IH.
Qed.

Lemma filter_show_none cmds :
  List.filter (fun c => negb (is_show c)) (List.filter is_show cmds) = [].
Proof.
  induction cmds as [|c l IH]; [done|]. cbn.
  destruct (is_show c) eqn:E; cbn; by rewrite ?E, ?IH.
Qed.

(** X5: [parse_commands] is idempotent: run again on the list it
    returned, it returns that list and has nothing to warn about. *)
Theorem parse_commands_idempotent p cmds warnings :
  parse_commands p = Ret (cmds, warnings) ->
  parse_commands (with_commands p cmds) = Ret (cmds, []).
Proof.
  rewrite (parse_commands_spec p).
  destruct (first_rejected p.(commands)) eqn:Hf; [done|].
  intros [= <- _].
  assert (Hall : Forall (fun c => allowed c = true)
                   (surviving p.(check_mode) p.(commands))).
  { apply Forall_forall. intros c [Hc _]%surviving_elem.
    by apply (first_rejected_None _ _ Hf). }
  rewrite parse_commands_spec.
  change (with_commands p (surviving p.(check_mode) p.(commands))).(commands)
    with (surviving p.(check_mode) p.(commands)).
  change (with_commands p (surviving p.(check_mode) p.(commands))).(check_mode)
    with p.(check_mode).
  rewrite (first_rejected_allowed _ Hall).
  unfold surviving, dropped_warnings.
  destruct p.(check_mode); [|done].
  by rewrite filter_show_twice, filter_show_none.
Qed.

(** ** main *)

Section MoreLoops.
Context `{W : Collaborators}.

Lemma compile_all_Ok i (exprs : list string) :
  Forall (fun s => Conditional_init s = Ok tt) exprs ->
  compile i exprs =
    (Ok (objects i exprs), (fun s => Compiled s (Ok tt)) <$> exprs).
Proof.
  intros Hall. revert i.
  induction Hall as [|s rest Hs _ IH]; intros i; [done|].
  cbn. by rewrite Hs, IH.
Qed.

Lemma compile_Raise_last i (exprs : list string) e t :
  compile i exprs = (Raise e, t) ->
  exists t0 s, t = t0 ++ [Compiled s (Raise e)].
Proof.
  revert i t. induction exprs as [|s rest IH]; intros i t; cbn; [done|].
  destruct (Conditional_init s) as [[]|e'] eqn:E.
  - destruct (compile (S i) rest) as [[cs|e''] t'] eqn:Ec; [done|].
    intros [= <- <-]. destruct (IH _ _ Ec) as (t0 & s' & ->).
    by exists (Compiled s (Ok tt) :: t0), s'.
  - intros [= <- <-]. by exists [], s.
Qed.

Lemma settle_Halt_last m resp (snap kept : list Conditional) o t :
  settle m resp snap kept = (Halt o, t) ->
  exists t0 c e, t = t0 ++ [Evaluated c (Raise e)] /\ o = uncaught e.
Proof.
  revert kept t. induction snap as [|item rest IH]; intros kept t; cbn; [done|].
  unfold evaluation.
  destruct (Conditional_call _ _) as [[|]|e] eqn:E.
  - destruct m; [|done].
    destruct (settle _ _ _ _) as [r' t'] eqn:Es. cbn.
    intros [= -> <-]. destruct (IH _ _ Es) as (t0 & c & e & -> & ->).
    by exists (Evaluated item (Ok true) :: t0), c, e.
  - destruct (settle _ _ _ _) as [r' t'] eqn:Es. cbn.
    intros [= -> <-]. destruct (IH _ _ Es) as (t0 & c & e & -> & ->).
    by exists (Evaluated item (Ok false) :: t0), c, e.
  - intros [= <- <-]. by exists [], item, e.
Qed.

(** The loop only gives up on an exception raised by a dispatch, an
    evaluation or a sleep: [list.remove] always finds the object it is
    asked to remove. *)
Lemma poll_Halt_last m secs cmds n k (conds : list Conditional) prev o t :
  NoDup conds ->
  poll m secs cmds n k conds prev = (Halt o, t) ->
  exists t0 x e, t = t0 ++ [x] /\ halts_with x = Some e /\ o = uncaught e.
Proof.
  revert k conds prev t. induction n as [|n IH]; intros k conds prev t Hnd.
  - done.
  - rewrite poll_S. cbn zeta.
    destruct (run_api_commands _ _ _) as [resp|e] eqn:Hr.
    2:{ intros [= <- <-]. by exists [], (Dispatched k cmds (Raise e)), e. }
    destruct (evaluate _ _ _ _) as [[[|c cs]|o'] te] eqn:Ee; [done| |].
    + destruct (evaluate_pending _ _ _ _ _ _ Hnd Ee) as (Hcs & _ & _).
      destruct (secs <? 0) eqn:Hsecs.
      * intros [= <- <-].
        exists (Dispatched k cmds (Ok resp) :: te), (Slept secs), negative_sleep.
        split_and!; [done| |done]. cbn. by rewrite Hsecs.
      * destruct (poll _ _ _ _ _ _ _) as [r' t'] eqn:E. cbn.
        intros [= -> <-].
        assert (Hnd' : NoDup (c :: cs)) by (rewrite Hcs; by apply NoDup_filter).
        destruct (IH _ _ _ _ Hnd' E) as (t0 & x & e & -> & Hx & ->).
        exists (Dispatched k cmds (Ok resp) :: te ++ Slept secs :: t0), x, e.
        split_and!; [|done..]. cbn. by rewrite <- app_assoc.
    + intros [= <- <-].
      pose proof (evaluate_settle m resp conds [] Hnd) as Hs. cbn in Hs.
      rewrite Hs in Ee.
      apply settle_Halt_last in Ee as (t0 & c & e & -> & ->).
      by exists (Dispatched k cmds (Ok resp) :: t0), (Evaluated c (Raise e)), e.
Qed.

Lemma halts_with_raised x e : halts_with x = Some e -> raised x = Some e.
Proof. by destruct x as [? []| | |]. Qed.

(** X6: once [parse_commands] has returned, an exception that leaves
    [main] was raised by the last call of the run: a constructor, a
    dispatch, an evaluation or a sleep.  The one exception that the
    code of [main] after [parse_commands] raises by itself is the read
    of [responses] when there was no attempt and no condition.  In
    particular the [list.remove] of the loop never fails. *)
Theorem uncaught_comes_from_the_last_call p cmds warnings e t :
  parse_commands p = Ret (cmds, warnings) ->
  main p = (uncaught e, t) ->
  (exists t0 x, t = t0 ++ [x] /\ raised x = Some e) \/
  (e = UnboundLocalError "responses" /\ t = [] /\
   p.(retries) <= 0 /\ default [] p.(wait_for) = []).
Proof.
  intros _ Hp%main_path_of.
  inversion Hp as [item Hf Ho|e' t' Hf Hcomp Ho|r tp Hf _ Hpoll Ho]; subst.
  - left. apply compile_Raise_last in Hcomp as (t0 & s & ->).
    exists t0, (Compiled s (Raise e')). split; [done|].
    destruct e'; try done; by injection Ho as ->.
  - destruct r as [[[|c cs] [resp|]]|o']; try done.
    + right. injection Ho as <-.
      apply poll_counts in Hpoll as (_ & _ & [(-> & Hn & Hobj & _)|[_ [? [=]]]]).
      split_and!; [done| |lia|].
      * destruct (default [] p.(wait_for)); [done|discriminate Hobj].
      * by destruct (default [] p.(wait_for)).
    + left. cbn in Ho. subst o'.
      apply poll_Halt_last in Hpoll as (t0 & x & e' & -> & Hx & [= <-]);
        [|apply objects_NoDup].
      exists (((fun s => Compiled s (Ok tt)) <$> default [] p.(wait_for)) ++ t0), x.
      split; [by rewrite <- app_assoc|by apply halts_with_raised].
Qed.

(** X7: the module exits successfully only after at least one
    dispatch.  What it hands to [exit_json] is: under [stdout] the
    response of the last dispatch, under [stdout_lines] its lines,
    under [warnings] the warnings of [parse_commands], and [changed =
    False] whatever the commands were; neither a message nor failed
    conditions. *)
Theorem success_reports_last_response p kw t :
  main p = (exit_json kw, t) ->
  exists resp,
    last_response None t = Some resp /\
    kw = success_result (dropped_warnings p.(check_mode) p.(commands)) resp /\
    kw !! "stdout" = Some (VList resp) /\
    kw !! "stdout_lines" = Some (VLines (to_lines resp)) /\
    kw !! "warnings" =
      Some (VList (dropped_warnings p.(check_mode) p.(commands))) /\
    kw !! "changed" = Some (VBool false) /\
    kw !! "failed_conditions" = None /\ kw !! "msg" = None /\
    (1 <= dispatches t)%nat.
Proof.
  intros Hp%main_path_of.
  inversion Hp as [item Hf Ho|e' t' Hf Hcomp Ho|r tp Hf _ Hpoll Ho]; subst.
  - by destruct e'.
  - destruct r as [[[|c cs] [resp|]]|o']; try done.
    2:{ apply poll_Halt in Hpoll as [e ->]. done. }
    injection Ho as <-. exists resp.
    pose proof (poll_last_response _ _ _ _ _ _ _ _ _ _ Hpoll) as Hlast.
    apply poll_counts in Hpoll as (_ & _ & [(_ & _ & _ & [=])|[Hd _]]).
    split_and!.
    + rewrite last_response_app.
      by rewrite (last_response_no_dispatch _ _ (compiled_no_dispatch _)).
    + done.
    + unfold success_result.
      rewrite lookup_insert_ne by done. by rewrite lookup_insert_eq.
    + unfold success_result. by rewrite lookup_insert_eq.
    + unfold success_result.
      rewrite !lookup_insert_ne by done. by rewrite lookup_singleton_eq.
    + unfold success_result.
      rewrite !lookup_insert_ne by done. by rewrite lookup_insert_eq.
    + unfold success_result.
      rewrite !lookup_insert_ne by done. by rewrite lookup_singleton_ne.
    + unfold success_result.
      rewrite !lookup_insert_ne by done. by rewrite lookup_singleton_ne.
    + unfold dispatches in *. rewrite count_app. lia.
Qed.

(** X8: when [retries] allows no attempt and there are conditions, the
    commands are never sent: the conditions are compiled, and
    [fail_json] is called with the message of unmet conditions and,
    under [failed_conditions], every expression of [wait_for]. *)
Theorem no_attempt_reports_every_condition p :
  p.(retries) <= 0 -> first_rejected p.(commands) = None ->
  Forall (fun s => Conditional_init s = Ok tt) (default [] p.(wait_for)) ->
  default [] p.(wait_for) <> [] ->
  exists kw,
    main p =
      (fail_json kw,
       (fun s => Compiled s (Ok tt)) <$> default [] p.(wait_for)) /\
    kw !! "failed_conditions" = Some (VList (default [] p.(wait_for))) /\
    kw !! "msg" =
      Some (VStr "One or more conditional statements have not been satisfied") /\
    kw !! "stdout" = None.
Proof.
  intros Hr Hf Hall Hne.
  exists (failure_result (default [] p.(wait_for))). split_and!.
  - unfold main.
    rewrite parse_commands_spec, Hf, (compile_all_Ok _ _ Hall).
    replace (Z.to_nat p.(retries)) with 0%nat by lia. cbn [poll ret].
    rewrite app_nil_r.
    destruct (default [] p.(wait_for)) as [|s wf] eqn:Hwf; [done|].
    unfold report. cbn [objects]. f_equal. f_equal. f_equal.
    cbn. by rewrite raw_objects.
  - unfold failure_result.
    rewrite lookup_insert_ne by done. by rewrite lookup_singleton_eq.
  - unfold failure_result. by rewrite lookup_insert_eq.
  - unfold failure_result.
    rewrite lookup_insert_ne by done. by rewrite lookup_singleton_ne.
Qed.

Lemma filter_unmet_id resp (l : list Conditional) :
  Forall (unmet resp) l -> filter (unmet resp) l = l.
Proof.
  induction 1 as [|c l Hc _ IH]; [done|].
  by rewrite filter_cons_True, IH.
Qed.

(** Under [any] the pending list stays whole until it is emptied. *)
Lemma poll_any_pending secs cmds n k (conds : list Conditional) prev c cs ro t :
  NoDup conds ->
  poll any secs cmds n k conds prev = (Ret (c :: cs, ro), t) ->
  c :: cs = conds.
Proof.
  revert k conds prev t. induction n as [|n IH]; intros k conds prev t Hnd.
  - cbn. unfold ret. by intros [= <- <- <-].
  - rewrite poll_S. cbn zeta.
    destruct (run_api_commands _ _ _) as [resp|e]; [|done].
    destruct (evaluate _ _ _ _) as [[[|c1 cs1]|o] te] eqn:Ee; [done| |done].
    destruct (secs <? 0); [done|].
    destruct (poll _ _ _ _ _ _ _) as [r' t'] eqn:E. cbn.
    intros [= -> <-].
    pose proof (evaluate_settle any resp conds [] Hnd) as Hs. cbn in Hs.
    rewrite Hs in Ee.
    apply settle_Ret in Ee as [(_ & [=] & _)|(Hcs & _ & _ & Hany)].
    cbn in Hcs. rewrite (filter_unmet_id _ _ (Hany eq_refl)) in Hcs.
    rewrite Hcs in E. by apply IH in E.
Qed.

(** X9: under [any], a run that ends with unmet conditions hands to
    [fail_json], under [failed_conditions], every expression of
    [wait_for], in order: none of them has evaluated true at any
    attempt. *)
Theorem any_failure_reports_every_condition p kw t :
  p.(match_) = any ->
  main p = (fail_json kw, t) -> is_Some (kw !! "failed_conditions") ->
  kw !! "failed_conditions" = Some (VList (default [] p.(wait_for))) /\
  kw !! "msg" =
    Some (VStr "One or more conditional statements have not been satisfied") /\
  (forall c, Evaluated c (Ok true) ∉ t).
Proof.
  intros Hany Hmain [v Hv].
  assert (Hkw : kw = failure_result (default [] p.(wait_for))).
  { apply main_path_of in Hmain.
    inversion Hmain as [item Hf Ho|e' t' Hf Hcomp Ho|r tp Hf _ Hpoll Ho]; subst.
    - by rewrite rejected_has_no_conditions in Hv.
    - destruct e'; try done. injection Ho as <-.
      by rewrite rejected_has_no_conditions in Hv.
    - destruct r as [[[|c cs] ro]|o']; [by destruct ro| |].
      2:{ apply poll_Halt in Hpoll as [e ->]. done. }
      injection Ho as <-. rewrite Hany in Hpoll.
      apply poll_any_pending in Hpoll; [|apply objects_NoDup].
      change (raw c :: list_fmap Conditional string raw cs)
        with (raw <$> c :: cs).
      by rewrite Hpoll, raw_objects. }
  split_and!.
  - rewrite Hkw. unfold failure_result.
    rewrite lookup_insert_ne by done. by rewrite lookup_singleton_eq.
  - rewrite Hkw. unfold failure_result. by rewrite lookup_insert_eq.
  - intros c (t1 & t2 & Ht)%list_elem_of_split.
    destruct (main_stops _ _ _ _ _ _ Hmain Ht)
      as [_ [(e & _ & [=])|(_ & _ & resp & _ & [=])]].
    right. split; [done|]. by exists c.
Qed.

(** *** The calls of a run *)

Lemma evaluate_events_are (P : Event -> Prop) m resp
    (snap conds : list Conditional) :
  (forall c r, P (Evaluated c r)) ->
  Forall P (evaluate m resp snap conds).2.
Proof.
  intros HP. eapply Forall_impl; [apply evaluate_events|].
  intros x (c & _ & ->). apply HP.
Qed.

Lemma poll_events_are (P : Event -> Prop) m secs cmds n k
    (conds : list Conditional) prev :
  (forall c r, P (Evaluated c r)) ->
  (forall j r, (k <= j)%nat -> r = run_api_commands j cmds false ->
               P (Dispatched j cmds r)) ->
  P (Slept secs) ->
  Forall P (poll m secs cmds n k conds prev).2.
Proof.
  intros He Hd Hs. revert k conds prev Hd.
  induction n as [|n IH]; intros k conds prev Hd.
  - constructor.
  - rewrite poll_S. cbn zeta.
    assert (Hhd : P (Dispatched k cmds (run_api_commands k cmds false)))
      by by apply Hd.
    pose proof (evaluate_events_are P m) as Hte.
    destruct (run_api_commands _ _ _) as [resp|e] eqn:Hr; cbn.
    2:{ by repeat constructor. }
    specialize (Hte resp conds conds He).
    destruct (evaluate _ _ _ _) as [[[|c cs]|o] te]; cbn in *.
    + by constructor.
    + destruct (secs <? 0); cbn; constructor; try done;
        apply Forall_app; split; try done; constructor; try done.
      apply IH. intros j r Hj. apply Hd. lia.
    + by constructor.
Qed.

(** X10: every sleep of a run lasts [interval] seconds, and there are
    never more sleeps than dispatches. *)
Theorem sleeps_last_the_interval p :
  (forall secs, Slept secs ∈ (main p).2 -> secs = p.(interval)) /\
  (sleeps (main p).2 <= dispatches (main p).2)%nat.
Proof.
  destruct (main_paths p) as [item Hf|e t Hf Hcomp|r' tp Hf _ Hpoll].
  - split; [by intros secs ?%elem_of_nil|done].
  - split.
    + intros secs Hin. by apply (compile_elem _ _ _ _ _ Hcomp) in Hin.
    + pose proof (compile_only_compiles 0 (default [] p.(wait_for))) as Hall.
      rewrite Hcomp in Hall. cbn in Hall.
      unfold sleeps. rewrite count_zero; [lia|].
      eapply Forall_impl; [exact Hall|]. by intros [].
  - split.
    + intros secs [Hin|Hin]%elem_of_app.
      { by apply not_in_compiled in Hin. }
      pose proof (poll_events_are
                    (fun x => forall s, x = Slept s -> s = p.(interval))
                    p.(match_) p.(interval)
                    (surviving p.(check_mode) p.(commands))
                    (Z.to_nat p.(retries)) 0
                    (objects 0 (default [] p.(wait_for))) None) as Hall.
      rewrite Hpoll, Forall_forall in Hall.
      apply (Hall ltac:(done) ltac:(done) ltac:(by intros s [= <-]) _ Hin).
      done.
    + unfold sleeps, dispatches. rewrite !count_app, !compiled_counts by done.
      apply poll_counts in Hpoll as (_ & Hle & _).
      unfold sleeps, dispatches in Hle. lia.
Qed.

Lemma filter_none (f : Event -> bool) t :
  Forall (fun x => f x = false) t -> List.filter f t = [].
Proof.
  induction 1 as [|x t Hx _ IH]; [done|]. cbn. by rewrite Hx.
Qed.

Lemma poll_dispatch_seq m secs cmds n k (conds : list Conditional) prev :
  List.filter is_dispatch (poll m secs cmds n k conds prev).2 =
    (fun j => Dispatched j cmds (run_api_commands j cmds false))
      <$> seq k (dispatches (poll m secs cmds n k conds prev).2).
Proof.
  unfold dispatches, count.
  revert k conds prev. induction n as [|n IH]; intros k conds prev.
  - done.
  - rewrite poll_S. cbn zeta.
    pose proof (evaluate_events_are (fun x => is_dispatch x = false) m) as Hte.
    destruct (run_api_commands _ _ _) as [resp|e] eqn:Hr; cbn [snd];
      [|cbn; by rewrite Hr].
    specialize (Hte resp conds conds ltac:(done)).
    destruct (evaluate _ _ _ _) as [[[|c cs]|o] te]; cbn [snd] in *.
    + cbn. by rewrite (filter_none _ _ Hte), Hr.
    + destruct (secs <? 0); cbn [snd List.filter is_dispatch];
        rewrite List.filter_app, (filter_none _ _ Hte); cbn.
      * by rewrite Hr.
      * f_equal; [by rewrite Hr|apply IH].
    + cbn. by rewrite (filter_none _ _ Hte), Hr.
Qed.

(** X11: the dispatches of a run are the calls number 0, 1, 2, ... of
    [run_api_commands], without a gap; each sends the whole list that
    [parse_commands] returned, and each is made with [direct_fail]
    set to [False]. *)
Theorem every_attempt_sends_the_same_batch p :
  List.filter is_dispatch (main p).2 =
    (fun k =>
       Dispatched k (surviving p.(check_mode) p.(commands))
         (run_api_commands k (surviving p.(check_mode) p.(commands)) false))
      <$> seq 0 (dispatches (main p).2).
Proof.
  destruct (main_paths p) as [item Hf|e t Hf Hcomp|r' tp Hf _ Hpoll].
  - done.
  - pose proof (compile_only_compiles 0 (default [] p.(wait_for))) as Hall.
    rewrite Hcomp in Hall. cbn in Hall.
    assert (Hnd : Forall (fun x => is_dispatch x = false) t)
      by (eapply Forall_impl; [exact Hall|]; by intros []).
    unfold dispatches. by rewrite (filter_none _ _ Hnd), (count_zero _ _ Hnd).
  - pose proof (poll_dispatch_seq p.(match_) p.(interval)
                  (surviving p.(check_mode) p.(commands))
                  (Z.to_nat p.(retries)) 0
                  (objects 0 (default [] p.(wait_for))) None) as Hseq.
    rewrite Hpoll in Hseq. cbn in Hseq.
    unfold dispatches in *.
    rewrite List.filter_app, count_app.
    rewrite (filter_none _ _ (compiled_no_dispatch _)).
    by rewrite (count_zero _ _ (compiled_no_dispatch _)).
Qed.

Lemma poll_negative_interval m secs cmds n k (conds : list Conditional) prev :
  secs < 0 -> (dispatches (poll m secs cmds n k conds prev).2 <= 1)%nat.
Proof.
  intros Hneg. unfold dispatches. destruct n as [|n]; [cbn; lia|].
  rewrite poll_S. cbn zeta.
  pose proof (evaluate_events_are (fun x => is_dispatch x = false) m) as Hte.
  destruct (run_api_commands _ _ _) as [resp|e]; [|cbn; lia].
  specialize (Hte resp conds conds ltac:(done)).
  destruct (evaluate _ _ _ _) as [[[|c cs]|o] te]; cbn [snd] in *.
  - rewrite count_cons, (count_zero _ _ Hte). cbn. lia.
  - replace (secs <? 0) with true by lia. cbn [snd].
    rewrite count_cons, count_app, (count_zero _ _ Hte). cbn. lia.
  - rewrite count_cons, (count_zero _ _ Hte). cbn. lia.
Qed.

(** X12: with a negative [interval] there is at most one attempt: the
    first sleep raises, and that is how the run ends. *)
Theorem negative_interval_allows_one_attempt p :
  p.(interval) < 0 ->
  (dispatches (main p).2 <= 1)%nat /\
  (forall secs, Slept secs ∈ (main p).2 ->
     (main p).1 = uncaught negative_sleep).
Proof.
  intros Hneg. split.
  - destruct (main_paths p) as [item Hf|e t Hf Hcomp|r' tp Hf _ Hpoll].
    + cbn. lia.
    + pose proof (compile_only_compiles 0 (default [] p.(wait_for))) as Hall.
      rewrite Hcomp in Hall. cbn in Hall.
      unfold dispatches. rewrite count_zero; [lia|].
      eapply Forall_impl; [exact Hall|]. by intros [].
    + pose proof (poll_negative_interval p.(match_) p.(interval)
                    (surviving p.(check_mode) p.(commands))
                    (Z.to_nat p.(retries)) 0
                    (objects 0 (default [] p.(wait_for))) None Hneg) as Hle.
      rewrite Hpoll in Hle. cbn [snd] in Hle.
      unfold dispatches in *. rewrite count_app, compiled_counts by done. lia.
  - intros secs Hin.
    pose proof (proj1 (sleeps_last_the_interval p) _ Hin) as ->.
    apply list_elem_of_split in Hin as (t1 & t2 & Ht).
    destruct (main p) as [o t] eqn:Hmain. cbn in *.
    assert (Hstop : stops p.(match_) (Slept p.(interval))).
    { left. cbn. replace (p.(interval) <? 0) with true by lia. by eexists. }
    destruct (main_stops _ _ _ _ _ _ Hmain Ht Hstop)
      as [_ [(e & He & ->)|(_ & [? [=]] & _)]].
    cbn in He. replace (p.(interval) <? 0) with true in He by lia.
    by injection He as <-.
Qed.

(** X13: the expressions of [wait_for] are compiled before anything
    else happens, each once and in order: as soon as the trace holds a
    dispatch, an evaluation or a sleep, it opens with one successful
    constructor call per expression, and holds no other. *)
Theorem conditions_are_compiled_first p x :
  x ∈ (main p).2 -> is_compile x = false ->
  exists tp,
    (main p).2 =
      ((fun s => Compiled s (Ok tt)) <$> default [] p.(wait_for)) ++ tp /\
    Forall (fun y => is_compile y = false) tp.
Proof.
  intros Hin Hx.
  destruct (main_paths p) as [item Hf|e t Hf Hcomp|r' tp Hf _ Hpoll].
  - by apply elem_of_nil in Hin.
  - apply (compile_elem _ _ _ _ _ Hcomp) in Hin. congruence.
  - exists tp. split; [done|].
    pose proof (poll_events_are (fun y => is_compile y = false)
                  p.(match_) p.(interval)
                  (surviving p.(check_mode) p.(commands))
                  (Z.to_nat p.(retries)) 0
                  (objects 0 (default [] p.(wait_for))) None) as Hall.
    rewrite Hpoll in Hall. by apply Hall.
Qed.

(** *** Changing the parameters *)

Lemma poll_more_retries m secs cmds n j k (conds : list Conditional) prev ro t :
  poll m secs cmds n k conds prev = (Ret ([], ro), t) ->
  n <> 0%nat \/ conds <> [] ->
  poll m secs cmds (n + j) k conds prev = (Ret ([], ro), t).
Proof.
  revert k conds prev t. induction n as [|n IH]; intros k conds prev t.
  - cbn. unfold ret. intros [= -> <- <-] [?|?]; done.
  - intros Hp _. change (S n + j)%nat with (S (n + j)).
    rewrite poll_S in *. cbn zeta in *.
    destruct (run_api_commands _ _ _) as [resp|e]; [|done].
    destruct (evaluate _ _ _ _) as [[[|c cs]|o] te]; [done| |done].
    destruct (secs <? 0); [done|].
    destruct (poll m secs cmds n _ _ _) as [r' t'] eqn:E. cbn in Hp.
    injection Hp as -> <-.
    by rewrite (IH _ _ _ _ E) by (by right).
Qed.

(** X14: a larger retry budget changes nothing in a run that
    succeeds: same dispatches, same evaluations, same result. *)
Theorem more_retries_keep_a_success p n kw t :
  main p = (exit_json kw, t) -> p.(retries) <= n ->
  main (with_retries p n) = (exit_json kw, t).
Proof.
  unfold main. change (parse_commands (with_retries p n))
    with (parse_commands p).
  cbn [with_retries wait_for match_ interval retries].
  destruct (parse_commands p) as [[cmds warnings]|o]; [|done].
  destruct (compile 0 _) as [[cs|e] tc]; [|done].
  destruct (poll _ _ _ (Z.to_nat p.(retries)) _ _ _) as [r tp] eqn:Hpoll.
  intros Hmain Hle.
  destruct r as [[[|c cs'] [resp|]]|o]; try done.
  2:{ apply poll_Halt in Hpoll as [e ->]. done. }
  replace (Z.to_nat n)
    with (Z.to_nat p.(retries) + (Z.to_nat n - Z.to_nat p.(retries)))%nat by lia.
  rewrite (poll_more_retries _ _ _ _ _ _ _ _ _ _ Hpoll); [done|].
  left. intros Hz. rewrite Hz in Hpoll. by injection Hpoll.
Qed.

Lemma evaluate_one_condition resp (conds : list Conditional) :
  (length conds <= 1)%nat ->
  evaluate any resp conds conds = evaluate all resp conds conds.
Proof.
  destruct conds as [|c [|c' conds]]; [done| |cbn; lia]. intros _.
  rewrite !evaluate_cons. cbn zeta.
  destruct (Conditional_call _ _) as [[|]|e]; [|done..].
  cbn [list_remove]. by rewrite decide_True.
Qed.

Lemma poll_one_condition secs cmds n k (conds : list Conditional) prev :
  (length conds <= 1)%nat ->
  poll any secs cmds n k conds prev = poll all secs cmds n k conds prev.
Proof.
  revert k conds prev. induction n as [|n IH]; intros k conds prev Hlen.
  - done.
  - rewrite !poll_S. cbn zeta.
    destruct (run_api_commands _ _ _) as [resp|e]; [|done].
    rewrite (evaluate_one_condition _ _ Hlen).
    destruct (evaluate all _ _ _) as [[[|c cs]|o] te] eqn:Ee; [done| |done].
    destruct (secs <? 0); [done|].
    apply evaluate_sublist, sublist_length in Ee.
    rewrite IH; [done|lia].
Qed.

Lemma length_objects i (exprs : list string) :
  length (objects i exprs) = length exprs.
Proof.
  revert i. induction exprs as [|s rest IH]; intros i; [done|].
  cbn. by rewrite IH.
Qed.

(** X15: with at most one condition the match policy makes no
    difference: [any] and [all] give the same run. *)
Theorem one_condition_any_is_all p :
  (length (default [] p.(wait_for)) <= 1)%nat ->
  main (with_match p any) = main (with_match p all).
Proof.
  intros Hlen. unfold main.
  change (parse_commands (with_match p any)) with (parse_commands p).
  change (parse_commands (with_match p all)) with (parse_commands p).
  cbn [with_match wait_for match_ interval retries].
  destruct (parse_commands p) as [[cmds warnings]|o]; [|done].
  destruct (compile 0 _) as [[cs|e] tc] eqn:Ec; [|done].
  apply compile_Ok in Ec as (-> & _ & _).
  by rewrite poll_one_condition by by rewrite length_objects.
Qed.

Lemma settle_any_all_unmet resp (snap kept : list Conditional) :
  Forall (unmet resp) snap ->
  settle any resp snap kept = (Ret (kept ++ snap), evaluation resp <$> snap).
Proof.
  intros Hall. revert kept.
  induction Hall as [|c snap Hc _ IH]; intros kept; cbn.
  - by rewrite app_nil_r.
  - unfold unmet in Hc. rewrite Hc, IH. cbn. by rewrite <- app_assoc.
Qed.

Lemma settle_any_some_true resp (snap kept : list Conditional) :
  Forall (fun c => exists b, Conditional_call c.(raw) resp = Ok b) snap ->
  ~ Forall (unmet resp) snap ->
  exists te, settle any resp snap kept = (Ret [], te).
Proof.
  intros Hok. revert kept.
  induction Hok as [|c snap [[|] Hc] _ IH]; intros kept Hnot; cbn.
  - destruct Hnot. constructor.
  - rewrite Hc. by eexists.
  - rewrite Hc.
    destruct (IH (kept ++ [c])) as [te Hte].
    { intros Hall. apply Hnot. by constructor. }
    rewrite Hte. by eexists.
Qed.

Lemma poll_all_any secs cmds n k (conds : list Conditional) prev resp t :
  NoDup conds ->
  poll all secs cmds n k conds prev = (Ret ([], Some resp), t) ->
  exists resp' t',
    poll any secs cmds n k conds prev = (Ret ([], Some resp'), t') /\
    (dispatches t' <= dispatches t)%nat.
Proof.
  unfold dispatches.
  revert k conds prev t. induction n as [|n IH]; intros k conds prev t Hnd.
  - cbn. unfold ret. intros [= -> -> <-]. by exists resp, [].
  - rewrite !poll_S. cbn zeta.
    destruct (run_api_commands _ _ _) as [resp1|e]; [|done].
    pose proof (evaluate_settle all resp1 conds [] Hnd) as Hall. cbn in Hall.
    pose proof (evaluate_settle any resp1 conds [] Hnd) as Hany. cbn in Hany.
    pose proof (evaluate_no_dispatch any resp1 conds conds) as Hda.
    unfold dispatches in Hda.
    rewrite Hany in Hda. rewrite Hall, Hany. clear Hall Hany.
    destruct (settle all _ _ _) as [[cs|o] te] eqn:Ee; [|done].
    apply settle_Ret in Ee as [([=] & _)|(Hcs & Hte & Hok & _)].
    cbn [app] in Hcs.
    destruct (decide (Forall (unmet resp1) conds)) as [Hun|Hnot].
    + rewrite (filter_unmet_id _ _ Hun) in Hcs. subst cs.
      rewrite (settle_any_all_unmet _ _ [] Hun) in *. cbn [app snd] in *.
      rewrite <- Hte in *. clear Hte.
      destruct conds as [|c conds].
      * intros [= <- <-].
        exists resp1, (Dispatched k cmds (Ok resp1) :: te). split; [done|lia].
      * destruct (secs <? 0); [done|].
        destruct (poll all _ _ _ _ _ _) as [r' t'] eqn:E. cbn [fst snd].
        intros [= -> <-].
        destruct (IH _ _ _ _ Hnd E) as (resp' & ta & Ha & Hle).
        rewrite Ha. cbn [fst snd].
        exists resp', (Dispatched k cmds (Ok resp1) :: te ++ Slept secs :: ta).
        split; [done|].
        rewrite !count_cons, !count_app, !count_cons. cbn [is_dispatch]. lia.
    + destruct (settle_any_some_true _ _ [] Hok Hnot) as [ta Hta].
      rewrite Hta in *. cbn [snd] in Hda.
      intros Ht. exists resp1, (Dispatched k cmds (Ok resp1) :: ta).
      split; [done|].
      assert (Hone : (1 <= count is_dispatch t)%nat).
      { destruct cs as [|c cs].
        - injection Ht as _ <-. rewrite count_cons. cbn [is_dispatch]. lia.
        - destruct (secs <? 0); [done|]. cbn [fst snd] in Ht.
          injection Ht as _ <-. rewrite count_cons. cbn [is_dispatch]. lia. }
      rewrite count_cons, Hda. cbn [is_dispatch]. lia.
Qed.

(** X16: where the policy [all] leads to success, so does [any], on
    the same device and with no more dispatches. *)
Theorem any_succeeds_where_all_does p kw t :
  main (with_match p all) = (exit_json kw, t) ->
  exists kw' t',
    main (with_match p any) = (exit_json kw', t') /\
    (dispatches t' <= dispatches t)%nat.
Proof.
  unfold main.
  change (parse_commands (with_match p any)) with (parse_commands p).
  change (parse_commands (with_match p all)) with (parse_commands p).
  cbn [with_match wait_for match_ interval retries].
  destruct (parse_commands p) as [[cmds warnings]|o];
    [|intros H; by exists kw, t].
  destruct (compile 0 _) as [[cs|e] tc] eqn:Ec;
    [|intros H; by exists kw, t].
  apply compile_Ok in Ec as (-> & -> & _).
  destruct (poll all _ _ _ _ _ _) as [r tp] eqn:Hpoll.
  intros Hmain.
  destruct r as [[[|c cs'] [resp|]]|o]; try done.
  2:{ apply poll_Halt in Hpoll as [e ->]. done. }
  injection Hmain as <- <-.
  apply poll_all_any in Hpoll as (resp' & ta & -> & Hle);
    [|apply objects_NoDup].
  eexists. eexists. split; [done|].
  unfold dispatches in *. rewrite !count_app. lia.
Qed.

(** *** What a condition is evaluated against *)

Lemma evaluated_in_trace (c : Conditional) r t :
  Evaluated c r ∈ t -> c ∈ evaluated_of t.
Proof.
  induction t as [|x t IH]; [by intros ?%elem_of_nil|].
  intros [<-|Hin]%elem_of_cons; [left|].
  destruct x; cbn; auto. right. auto.
Qed.

Lemma poll_evaluated_latest m secs cmds n k (conds : list Conditional) prev
    t1 (c : Conditional) r t2 :
  (poll m secs cmds n k conds prev).2 = t1 ++ Evaluated c r :: t2 ->
  exists resp,
    last_response prev t1 = Some resp /\ r = Conditional_call c.(raw) resp.
Proof.
  revert k conds prev t1. induction n as [|n IH]; intros k conds prev t1.
  - by destruct t1.
  - rewrite poll_S. cbn zeta.
    destruct (run_api_commands _ _ _) as [resp|e]; cbn [snd];
      [|by destruct t1 as [|? []]].
    pose proof (evaluate_events m resp conds conds) as Hev.
    assert (Hin : forall a b, (evaluate m resp conds conds).2
                              = a ++ Evaluated c r :: b ->
              last_response (Some resp) a = Some resp /\
              r = Conditional_call c.(raw) resp).
    { intros a b Heq. rewrite Heq in Hev.
      apply Forall_app in Hev as [Ha Hb]. split.
      - apply last_response_no_dispatch.
        eapply Forall_impl; [exact Ha|]. by intros x (c' & _ & ->).
      - apply Forall_cons in Hb as [(c' & _ & [= <- ->]) _]. done. }
    destruct t1 as [|x t1]; [by destruct (evaluate _ _ _ _) as [[[|]|] ?];
                                try destruct (secs <? 0)|].
    assert (Hhead : forall tl, Dispatched k cmds (Ok resp) :: tl
                               = (x :: t1) ++ Evaluated c r :: t2 ->
              x = Dispatched k cmds (Ok resp) /\ tl = t1 ++ Evaluated c r :: t2)
      by (by intros tl [= <- <-]).
    destruct (evaluate _ _ _ _) as [[[|c1 cs1]|o] te]; cbn [snd] in *.
    + intros [-> Hte]%Hhead. exists resp. cbn. by apply (Hin t1 t2).
    + assert (Hcut : forall tl, te ++ Slept secs :: tl
                                = t1 ++ Evaluated c r :: t2 ->
                (exists b, te = t1 ++ Evaluated c r :: b) \/
                (exists a, t1 = te ++ Slept secs :: a /\
                           tl = a ++ Evaluated c r :: t2)).
      { intros tl Heq. symmetry in Heq.
        apply app_eq_inv in Heq as [(k0 & Hk1 & Hk2)|(k0 & Hk1 & Hk2)].
        - destruct k0 as [|y k0]; [done|]. injection Hk2 as <- ->.
          right. by exists k0.
        - destruct k0 as [|y k0].
          + rewrite app_nil_r in Hk1. subst te. by injection Hk2.
          + injection Hk2 as -> ->. left. by exists k0. }
      destruct (secs <? 0); cbn [snd].
      * intros [-> Htl]%Hhead.
        apply Hcut in Htl as [[b Hb]|(a & _ & Ha)]; [|by destruct a].
        exists resp. cbn. by apply (Hin t1 b).
      * intros [-> Htl]%Hhead.
        apply Hcut in Htl as [[b Hb]|(a & -> & Ha)].
        -- exists resp. cbn. by apply (Hin t1 b).
        -- apply IH in Ha as (resp' & Hlast & ->). exists resp'.
           split; [|done]. cbn. rewrite last_response_app.
           rewrite (last_response_no_dispatch (Some resp) te); [done|].
           eapply Forall_impl; [exact Hev|]. by intros y (c' & _ & ->).
    + intros [-> Hte]%Hhead. exists resp. cbn. by apply (Hin t1 t2).
Qed.

(** X17: every evaluation of a run is that of a condition of
    [wait_for] against the response of the dispatch made last before
    it; no condition is evaluated before the first dispatch, nor
    against an older response. *)
Theorem conditions_see_the_latest_response p t1 c r t2 :
  (main p).2 = t1 ++ Evaluated c r :: t2 ->
  c ∈ objects 0 (default [] p.(wait_for)) /\
  exists resp,
    last_response None t1 = Some resp /\ r = Conditional_call c.(raw) resp.
Proof.
  intros Ht.
  destruct (main_paths p) as [item Hf|e t Hf Hcomp|r' tp Hf _ Hpoll].
  - by destruct t1.
  - pose proof (elem_of_middle (Evaluated c r) t1 t2) as Hin.
    cbn in Ht. rewrite <- Ht in Hin.
    by apply (compile_elem _ _ _ _ _ Hcomp) in Hin.
  - cbn in Ht. symmetry in Ht.
    apply cut_in_app in Ht as (k0 & -> & Htp); [|by apply not_in_compiled].
    assert (Htp' : (poll p.(match_) p.(interval)
                      (surviving p.(check_mode) p.(commands))
                      (Z.to_nat p.(retries)) 0
                      (objects 0 (default [] p.(wait_for))) None).2 =
                   k0 ++ Evaluated c r :: t2) by by rewrite Hpoll.
    split.
    + eapply poll_evaluated_in. rewrite Htp'.
      apply (evaluated_in_trace c r), elem_of_middle.
    + apply poll_evaluated_latest in Htp' as (resp & Hlast & ->).
      exists resp. split; [|done]. rewrite last_response_app.
      by rewrite (last_response_no_dispatch _ _ (compiled_no_dispatch _)).
Qed.

(** *** Edges *)

Lemma dispatches_bounded_by_retries_nat p :
  (dispatches (main p).2 <= Z.to_nat p.(retries))%nat.
Proof.
  destruct (main_paths p) as [item Hf|e t Hf Hcomp|r' tp Hf _ Hpoll].
  - cbn. lia.
  - pose proof (compile_only_compiles 0 (default [] p.(wait_for))) as Hall.
    rewrite Hcomp in Hall. cbn [snd] in Hall.
    unfold dispatches. rewrite count_zero; [lia|].
    eapply Forall_impl; [exact Hall|]. by intros [].
  - unfold dispatches. rewrite count_app, compiled_counts by done.
    apply poll_counts in Hpoll as (Hn & _). unfold dispatches in Hn. lia.
Qed.


(** X18: when [retries] allows no attempt the module cannot succeed:
    the trace holds constructor calls only, and the run never ends in
    [exit_json]; without conditions and with allowed commands it ends
    on the read of [responses], which was never assigned. *)
Theorem no_attempt_never_succeeds p :
  p.(retries) <= 0 ->
  Forall (fun x => is_compile x = true) (main p).2 /\
  (forall kw, (main p).1 <> exit_json kw) /\
  (default [] p.(wait_for) = [] -> first_rejected p.(commands) = None ->
   (main p).1 = uncaught (UnboundLocalError "responses")).
Proof.
  intros Hr. split_and!.
  - destruct (main_paths p) as [item Hf|e t Hf Hcomp|r' tp Hf _ Hpoll].
    + constructor.
    + pose proof (compile_only_compiles 0 (default [] p.(wait_for))) as Hall.
      by rewrite Hcomp in Hall.
    + replace (Z.to_nat p.(retries)) with 0%nat in Hpoll by lia.
      injection Hpoll as <- <-. rewrite app_nil_r.
      by apply Forall_fmap, Forall_forall.
  - intros kw Hkw. destruct (main p) as [o t] eqn:Hmain. cbn in Hkw. subst o.
    destruct (success_reports_last_response _ _ _ Hmain)
      as (resp & _ & _ & _ & _ & _ & _ & _ & _ & Hd).
    pose proof (dispatches_bounded_by_retries_nat p) as Hle.
    rewrite Hmain in Hle. cbn [snd] in Hle. lia.
  - intros Hwf Hf. by rewrite (no_attempt_no_response p Hwf Hr Hf).
Qed.

(** X19: whenever the module ends in [fail_json], the call carries a
    message and neither the warnings nor [changed]: the warnings that
    check mode has collected are not reported on a failure. *)
Theorem failure_drops_the_warnings p kw t :
  main p = (fail_json kw, t) ->
  is_Some (kw !! "msg") /\ kw !! "warnings" = None /\ kw !! "changed" = None.
Proof.
  intros Hp%main_path_of.
  inversion Hp as [item Hf Ho|e' t' Hf Hcomp Ho|r tp Hf _ Hpoll Ho]; subst.
  - split_and!; [by eexists|by apply lookup_singleton_ne..].
  - destruct e'; try done. injection Ho as <-.
    split_and!; [by eexists|by apply lookup_singleton_ne..].
  - destruct r as [[[|c cs] ro]|o']; [by destruct ro| |].
    2:{ apply poll_Halt in Hpoll as [e ->]. done. }
    injection Ho as <-. by split_and!; [eexists|..].
Qed.

(** X20: in check mode, when no command is a [show] command, every
    command is dropped and [run_api_commands] is still called, with an
    empty list. *)
Theorem check_mode_may_send_an_empty_batch p :
  p.(check_mode) = true ->
  Forall (fun c => allowed c = true /\ is_show c = false) p.(commands) ->
  Forall (fun s => Conditional_init s = Ok tt) (default [] p.(wait_for)) ->
  1 <= p.(retries) ->
  Dispatched 0 [] (run_api_commands 0 [] false) ∈ (main p).2.
Proof.
  intros Hcheck Hcmds Hall Hr. unfold main.
  assert (Hal : Forall (fun c => allowed c = true) p.(commands))
    by (eapply Forall_impl; [exact Hcmds|]; by intros c [? _]).
  assert (Hnone : surviving p.(check_mode) p.(commands) = []).
  { rewrite Hcheck. cbn. clear -Hcmds.
    induction Hcmds as [|c l [_ Hc] _ IH]; [done|]. cbn. by rewrite Hc. }
  rewrite parse_commands_spec, (first_rejected_allowed _ Hal), Hnone.
  rewrite (compile_all_Ok _ _ Hall).
  destruct (Z.to_nat p.(retries)) as [|n] eqn:En; [lia|].
  pose proof (poll_S p.(match_) p.(interval) [] n 0
                (objects 0 (default [] p.(wait_for))) None) as HS.
  destruct (poll _ _ _ (S n) _ _ _) as [r tp]. cbn zeta in HS.
  assert (Hhd : exists tl, tp = Dispatched 0 [] (run_api_commands 0 [] false) :: tl).
  { destruct (run_api_commands 0 [] false) as [resp|e];
      [|injection HS as _ ->; by eexists].
    destruct (evaluate _ _ _ _) as [[[|c cs]|o] te];
      [|destruct (p.(interval) <? 0)|]; injection HS as _ ->; by eexists. }
  destruct Hhd as [tl ->].
  destruct r; cbn; rewrite elem_of_app; right; left.
Qed.

End MoreLoops.

(** ** Concrete runs for the further properties *)

(** Witness of X2: the third of four commands is rejected, in check
    mode, after a command that check mode drops. *)
Lemma parse_commands_rejects_first_witness :
  (dry_run ["show version"; "set x"; "reboot now"; "show y"]).(commands) =
    ["show version"; "set x"] ++ "reboot now" :: ["show y"] /\
  Forall (fun c => allowed c = true) ["show version"; "set x"] /\
  allowed "reboot now" = false /\
  parse_commands (dry_run ["show version"; "set x"; "reboot now"; "show y"]) =
    Halt (fail_json {[ "msg" := VStr (not_allowed_msg "reboot now") ]}).
Proof.
  assert (Hall : Forall (fun c => allowed c = true) ["show version"; "set x"])
    by (repeat constructor).
  split; [reflexivity|]. split; [exact Hall|]. split; [reflexivity|].
  exact (parse_commands_rejects_first
           (dry_run ["show version"; "set x"; "reboot now"; "show y"])
           ["show version"; "set x"] "reboot now" ["show y"]
           eq_refl Hall eq_refl).
Defined.

(** Witness of X3. *)
Lemma parse_commands_keeps_allowed_witness :
  (run mixed_commands [] all 3).(check_mode) = false /\
  Forall (fun c => allowed c = true) (run mixed_commands [] all 3).(commands) /\
  parse_commands (run mixed_commands [] all 3) = Ret (mixed_commands, []).
Proof.
  assert (Hall : Forall (fun c => allowed c = true)
                   (run mixed_commands [] all 3).(commands))
    by (repeat constructor).
  split; [reflexivity|]. split; [exact Hall|].
  exact (parse_commands_keeps_allowed (run mixed_commands [] all 3)
           eq_refl Hall).
Defined.

(** Witness of X4: two commands kept, two warnings. *)
Lemma parse_commands_check_mode_witness :
  (dry_run mixed_commands).(check_mode) = true /\
  Forall (fun c => allowed c = true) (dry_run mixed_commands).(commands) /\
  parse_commands (dry_run mixed_commands) =
    Ret (List.filter is_show mixed_commands,
         check_mode_warning <$>
           List.filter (fun c => negb (is_show c)) mixed_commands).
Proof.
  assert (Hall : Forall (fun c => allowed c = true)
                   (dry_run mixed_commands).(commands))
    by (repeat constructor).
  split; [reflexivity|]. split; [exact Hall|].
  exact (proj1 (parse_commands_check_mode (dry_run mixed_commands)
                  eq_refl Hall)).
Defined.

(** Witness of X5. *)
Lemma parse_commands_idempotent_witness :
  parse_commands (dry_run mixed_commands) =
    Ret (["show version"; "show interfaces"],
         [check_mode_warning "set system host-name r1";
          check_mode_warning "delete system host-name"]) /\
  parse_commands
    (with_commands (dry_run mixed_commands)
       ["show version"; "show interfaces"]) =
    Ret (["show version"; "show interfaces"], []).
Proof.
  assert (Hrun : parse_commands (dry_run mixed_commands) =
                 Ret (["show version"; "show interfaces"],
                      [check_mode_warning "set system host-name r1";
                       check_mode_warning "delete system host-name"]))
    by (vm_compute; reflexivity).
  split; [exact Hrun|].
  exact (parse_commands_idempotent _ _ _ Hrun).
Defined.

(** Witness of X6: the index error of an evaluation. *)
Lemma uncaught_comes_from_the_last_call_witness :
  parse_commands
    (run ["show version"; "show interfaces"] [wants_sixth] all 3) =
    Ret (["show version"; "show interfaces"], []) /\
  main (W := two_answers)
    (run ["show version"; "show interfaces"] [wants_sixth] all 3) =
    (uncaught out_of_range,
     sixth_trace ++ Evaluated (cond 0 wants_sixth) (Raise out_of_range) :: []) /\
  ((exists t0 x,
      sixth_trace ++ Evaluated (cond 0 wants_sixth) (Raise out_of_range) :: []
        = t0 ++ [x] /\ raised x = Some out_of_range) \/
   (out_of_range = UnboundLocalError "responses" /\
    sixth_trace ++ Evaluated (cond 0 wants_sixth) (Raise out_of_range) :: []
      = [] /\
    (run ["show version"; "show interfaces"] [wants_sixth] all 3).(retries) <= 0 /\
    default []
      (run ["show version"; "show interfaces"] [wants_sixth] all 3).(wait_for)
      = [])).
Proof.
  assert (Hparse : parse_commands
                     (run ["show version"; "show interfaces"] [wants_sixth] all 3) =
                   Ret (["show version"; "show interfaces"], []))
    by (vm_compute; reflexivity).
  assert (Hrun : main (W := two_answers)
                   (run ["show version"; "show interfaces"] [wants_sixth] all 3) =
                 (uncaught out_of_range,
                  sixth_trace ++
                    Evaluated (cond 0 wants_sixth) (Raise out_of_range) :: []))
    by (vm_compute; reflexivity).
  split; [exact Hparse|]. split; [exact Hrun|].
  exact (uncaught_comes_from_the_last_call _ _ _ _ _ Hparse Hrun).
Defined.

(** Witness of X7: success at the third attempt. *)
Lemma success_reports_last_response_witness :
  main (W := upgraded) (run ["show version"] [wants_1_3_0] all 3) =
    (exit_json (success_result [] ["VyOS 1.3.0"]), success_trace) /\
  exists resp,
    last_response None success_trace = Some resp /\
    success_result [] ["VyOS 1.3.0"] = success_result [] resp /\
    success_result [] ["VyOS 1.3.0"] !! "stdout" = Some (VList resp) /\
    success_result [] ["VyOS 1.3.0"] !! "stdout_lines"
      = Some (VLines (to_lines resp)) /\
    success_result [] ["VyOS 1.3.0"] !! "warnings" = Some (VList []) /\
    success_result [] ["VyOS 1.3.0"] !! "changed" = Some (VBool false) /\
    success_result [] ["VyOS 1.3.0"] !! "failed_conditions" = None /\
    success_result [] ["VyOS 1.3.0"] !! "msg" = None /\
    (1 <= dispatches success_trace)%nat.
Proof.
  assert (Hrun : main (W := upgraded) (run ["show version"] [wants_1_3_0] all 3) =
                 (exit_json (success_result [] ["VyOS 1.3.0"]), success_trace))
    by (vm_compute; reflexivity).
  split; [exact Hrun|].
  exact (success_reports_last_response _ _ _ Hrun).
Defined.

(** Witness of X8: no attempt allowed, one condition. *)
Lemma no_attempt_reports_every_condition_witness :
  (run ["show version"] [wants_1_3_0] all 0).(retries) <= 0 /\
  first_rejected (run ["show version"] [wants_1_3_0] all 0).(commands) = None /\
  Forall (fun s => Conditional_init (Collaborators := old_version) s = Ok tt)
    (default [] (run ["show version"] [wants_1_3_0] all 0).(wait_for)) /\
  default [] (run ["show version"] [wants_1_3_0] all 0).(wait_for) <> [] /\
  exists kw,
    main (W := old_version) (run ["show version"] [wants_1_3_0] all 0) =
      (fail_json kw, [Compiled wants_1_3_0 (Ok tt)]) /\
    kw !! "failed_conditions" = Some (VList [wants_1_3_0]) /\
    kw !! "msg" =
      Some (VStr "One or more conditional statements have not been satisfied") /\
    kw !! "stdout" = None.
Proof.
  assert (Hr : (run ["show version"] [wants_1_3_0] all 0).(retries) <= 0)
    by (vm_compute; discriminate).
  assert (Hall : Forall (fun s => Conditional_init (Collaborators := old_version) s
                                  = Ok tt)
                   (default [] (run ["show version"] [wants_1_3_0] all 0).(wait_for)))
    by (repeat constructor).
  assert (Hne : default [] (run ["show version"] [wants_1_3_0] all 0).(wait_for)
                <> []) by discriminate.
  split; [exact Hr|]. split; [reflexivity|]. split; [exact Hall|].
  split; [exact Hne|].
  exact (no_attempt_reports_every_condition (W := old_version)
           (run ["show version"] [wants_1_3_0] all 0) Hr eq_refl Hall Hne).
Defined.

(** Witness of X9: two conditions, neither ever met. *)
Lemma any_failure_reports_every_condition_witness :
  (run ["show version"] [wants_x; wants_1_3_0] any 2).(match_) = any /\
  main (W := old_version) (run ["show version"] [wants_x; wants_1_3_0] any 2) =
    (fail_json (failure_result [wants_x; wants_1_3_0]), any_stale_trace) /\
  is_Some (failure_result [wants_x; wants_1_3_0] !! "failed_conditions") /\
  failure_result [wants_x; wants_1_3_0] !! "failed_conditions" =
    Some (VList [wants_x; wants_1_3_0]) /\
  failure_result [wants_x; wants_1_3_0] !! "msg" =
    Some (VStr "One or more conditional statements have not been satisfied") /\
  (forall c, Evaluated c (Ok true) ∉ any_stale_trace).
Proof.
  assert (Hrun : main (W := old_version)
                   (run ["show version"] [wants_x; wants_1_3_0] any 2) =
                 (fail_json (failure_result [wants_x; wants_1_3_0]),
                  any_stale_trace))
    by (vm_compute; reflexivity).
  assert (Hfc : is_Some (failure_result [wants_x; wants_1_3_0]
                           !! "failed_conditions"))
    by (vm_compute; eauto).
  split; [reflexivity|]. split; [exact Hrun|]. split; [exact Hfc|].
  exact (any_failure_reports_every_condition (W := old_version)
           (run ["show version"] [wants_x; wants_1_3_0] any 2) _ _
           eq_refl Hrun Hfc).
Defined.

(** Witness of X10. *)
Lemma sleeps_last_the_interval_witness :
  Slept 1 ∈ (main (W := old_version)
               (run ["show version"] [wants_1_3_0] all 3)).2 /\
  1 = (run ["show version"] [wants_1_3_0] all 3).(interval).
Proof.
  assert (Hin : Slept 1 ∈ (main (W := old_version)
                             (run ["show version"] [wants_1_3_0] all 3)).2)
    by (vm_compute; repeat constructor).
  split; [exact Hin|].
  exact (proj1 (sleeps_last_the_interval (W := old_version)
                  (run ["show version"] [wants_1_3_0] all 3)) 1 Hin).
Defined.

(** Witness of X12: the condition is unmet and the interval negative. *)
Lemma negative_interval_allows_one_attempt_witness :
  (hasty [wants_1_3_0]).(interval) < 0 /\
  (dispatches (main (W := old_version) (hasty [wants_1_3_0])).2 <= 1)%nat /\
  Slept (-1) ∈ (main (W := old_version) (hasty [wants_1_3_0])).2 /\
  (main (W := old_version) (hasty [wants_1_3_0])).1 = uncaught negative_sleep.
Proof.
  assert (Hneg : (hasty [wants_1_3_0]).(interval) < 0) by (vm_compute; reflexivity).
  assert (Hin : Slept (-1) ∈ (main (W := old_version) (hasty [wants_1_3_0])).2)
    by (vm_compute; repeat constructor).
  split; [exact Hneg|]. split; [|split; [exact Hin|]].
  - exact (proj1 (negative_interval_allows_one_attempt (W := old_version)
                    (hasty [wants_1_3_0]) Hneg)).
  - exact (proj2 (negative_interval_allows_one_attempt (W := old_version)
                    (hasty [wants_1_3_0]) Hneg) _ Hin).
Defined.

(** Witness of X13. *)
Lemma conditions_are_compiled_first_witness :
  Slept 1 ∈ (main (W := old_version)
               (run ["show version"] [wants_x; wants_1_3_0] any 2)).2 /\
  is_compile (Slept 1) = false /\
  exists tp,
    (main (W := old_version)
       (run ["show version"] [wants_x; wants_1_3_0] any 2)).2 =
      ((fun s => Compiled s (Ok tt)) <$> [wants_x; wants_1_3_0]) ++ tp /\
    Forall (fun y => is_compile y = false) tp.
Proof.
  assert (Hin : Slept 1 ∈ (main (W := old_version)
                  (run ["show version"] [wants_x; wants_1_3_0] any 2)).2)
    by (vm_compute; repeat constructor).
  split; [exact Hin|]. split; [reflexivity|].
  exact (conditions_are_compiled_first (W := old_version)
           (run ["show version"] [wants_x; wants_1_3_0] any 2) _ Hin eq_refl).
Defined.

(** Witness of X14: ten retries allowed instead of three. *)
Lemma more_retries_keep_a_success_witness :
  main (W := upgraded) (run ["show version"] [wants_1_3_0] all 3) =
    (exit_json (success_result [] ["VyOS 1.3.0"]), success_trace) /\
  (run ["show version"] [wants_1_3_0] all 3).(retries) <= 10 /\
  main (W := upgraded)
    (with_retries (run ["show version"] [wants_1_3_0] all 3) 10) =
    (exit_json (success_result [] ["VyOS 1.3.0"]), success_trace).
Proof.
  assert (Hrun : main (W := upgraded) (run ["show version"] [wants_1_3_0] all 3) =
                 (exit_json (success_result [] ["VyOS 1.3.0"]), success_trace))
    by (vm_compute; reflexivity).
  assert (Hle : (run ["show version"] [wants_1_3_0] all 3).(retries) <= 10)
    by (vm_compute; discriminate).
  split; [exact Hrun|]. split; [exact Hle|].
  exact (more_retries_keep_a_success _ _ _ _ Hrun Hle).
Defined.

(** Witness of X15. *)
Lemma one_condition_any_is_all_witness :
  (length (default [] (run ["show version"] [wants_1_3_0] all 3).(wait_for))
   <= 1)%nat /\
  main (W := upgraded)
    (with_match (run ["show version"] [wants_1_3_0] all 3) any) =
  main (W := upgraded)
    (with_match (run ["show version"] [wants_1_3_0] all 3) all).
Proof.
  assert (Hlen : (length (default []
                    (run ["show version"] [wants_1_3_0] all 3).(wait_for))
                  <= 1)%nat) by (vm_compute; lia).
  split; [exact Hlen|].
  exact (one_condition_any_is_all (W := upgraded) _ Hlen).
Defined.

(** Witness of X16: under [all] the two conditions are met after three
    dispatches; under [any] one dispatch is enough. *)
Lemma any_succeeds_where_all_does_witness :
  main (W := upgraded)
    (with_match (run ["show version"] [wants_vyos; wants_1_3_0] any 3) all) =
    (exit_json (success_result [] ["VyOS 1.3.0"]), upgrade_trace) /\
  exists kw' t',
    main (W := upgraded)
      (with_match (run ["show version"] [wants_vyos; wants_1_3_0] any 3) any) =
      (exit_json kw', t') /\
    (dispatches t' <= dispatches upgrade_trace)%nat.
Proof.
  assert (Hrun : main (W := upgraded)
                   (with_match
                      (run ["show version"] [wants_vyos; wants_1_3_0] any 3) all) =
                 (exit_json (success_result [] ["VyOS 1.3.0"]), upgrade_trace))
    by (vm_compute; reflexivity).
  split; [exact Hrun|].
  exact (any_succeeds_where_all_does _ _ _ Hrun).
Defined.

(** Witness of X17: the evaluation of the second attempt sees the
    response of the second dispatch. *)
Lemma conditions_see_the_latest_response_witness :
  (main (W := old_version) (run ["show version"] [wants_1_3_0] all 3)).2 =
    take 5 stale_trace ++ Evaluated (cond 0 wants_1_3_0) (Ok false)
      :: drop 6 stale_trace /\
  cond 0 wants_1_3_0 ∈
    objects 0 (default [] (run ["show version"] [wants_1_3_0] all 3).(wait_for)) /\
  exists resp,
    last_response None (take 5 stale_trace) = Some resp /\
    Ok false = Conditional_call (Collaborators := old_version)
                 (cond 0 wants_1_3_0).(raw) resp.
Proof.
  assert (Hrun : (main (W := old_version)
                    (run ["show version"] [wants_1_3_0] all 3)).2 =
                 take 5 stale_trace ++ Evaluated (cond 0 wants_1_3_0) (Ok false)
                   :: drop 6 stale_trace)
    by (vm_compute; reflexivity).
  split; [exact Hrun|].
  exact (conditions_see_the_latest_response (W := old_version) _ _ _ _ _ Hrun).
Defined.

(** Witness of X18: no attempt, no condition. *)
Lemma no_attempt_never_succeeds_witness :
  (run ["show version"] [] all 0).(retries) <= 0 /\
  default [] (run ["show version"] [] all 0).(wait_for) = [] /\
  first_rejected (run ["show version"] [] all 0).(commands) = None /\
  (main (W := old_version) (run ["show version"] [] all 0)).1 =
    uncaught (UnboundLocalError "responses").
Proof.
  assert (Hr : (run ["show version"] [] all 0).(retries) <= 0)
    by (vm_compute; discriminate).
  split; [exact Hr|]. split; [reflexivity|]. split; [reflexivity|].
  exact (proj2 (proj2 (no_attempt_never_succeeds (W := old_version)
                         (run ["show version"] [] all 0) Hr))
           eq_refl eq_refl).
Defined.

(** Witness of X19: the run against the device that is never
    upgraded. *)
Lemma failure_drops_the_warnings_witness :
  main (W := old_version) (run ["show version"] [wants_1_3_0] all 3) =
    (fail_json (failure_result [wants_1_3_0]), stale_trace) /\
  is_Some (failure_result [wants_1_3_0] !! "msg") /\
  failure_result [wants_1_3_0] !! "warnings" = None /\
  failure_result [wants_1_3_0] !! "changed" = None.
Proof.
  assert (Hrun : main (W := old_version)
                   (run ["show version"] [wants_1_3_0] all 3) =
                 (fail_json (failure_result [wants_1_3_0]), stale_trace))
    by (vm_compute; reflexivity).
  split; [exact Hrun|].
  exact (failure_drops_the_warnings _ _ _ Hrun).
Defined.

(** Witness of X20: a dry run of two commands that change the
    configuration. *)
Lemma check_mode_may_send_an_empty_batch_witness :
  (dry_run ["set system host-name r1"; "delete system host-name"]).(check_mode)
    = true /\
  Forall (fun c => allowed c = true /\ is_show c = false)
    (dry_run ["set system host-name r1"; "delete system host-name"]).(commands) /\
  Forall (fun s => Conditional_init (Collaborators := old_version) s = Ok tt)
    (default []
       (dry_run ["set system host-name r1"; "delete system host-name"]).(wait_for)) /\
  1 <= (dry_run ["set system host-name r1"; "delete system host-name"]).(retries) /\
  Dispatched 0 [] (run_api_commands (Collaborators := old_version) 0 [] false)
    ∈ (main (W := old_version)
         (dry_run ["set system host-name r1"; "delete system host-name"])).2.
Proof.
  assert (Hcmds : Forall (fun c => allowed c = true /\ is_show c = false)
            (dry_run ["set system host-name r1"; "delete system host-name"]).(commands))
    by (repeat constructor).
  assert (Hall : Forall (fun s => Conditional_init (Collaborators := old_version) s
                                  = Ok tt)
            (default []
               (dry_run ["set system host-name r1"; "delete system host-name"]).(wait_for)))
    by constructor.
  assert (Hr : 1 <= (dry_run ["set system host-name r1";
                              "delete system host-name"]).(retries))
    by (vm_compute; discriminate).
  split; [reflexivity|]. split; [exact Hcmds|]. split; [exact Hall|].
  split; [exact Hr|].
  exact (check_mode_may_send_an_empty_batch (W := old_version)
           (dry_run ["set system host-name r1"; "delete system host-name"])
           eq_refl Hcmds Hall Hr).
Defined.
